(** * qsurfacetexture.cpp: a Qt Quick item showing an Android SurfaceTexture

    A shallow embedding of [qtsurfacetexture/qsurfacetexture.cpp].

    The file is glue between three hosts: the OpenGL ES context of the Qt
    Quick renderer, the Java virtual machine reached through JNI, and the Qt
    object and scene-graph runtime.  The functions of the source are
    embedded as computations of a state monad over a [World] that holds

    - a [trace]: the host calls issued so far, oldest first, with their
      arguments;
    - a small model of each host, enough to say what a call did: the
      external-texture names, their parameters and bindings of the GL
      context; the JNI reference table and the Java heap; the posted events
      of the Qt event loop.

    Numbers are kept as the code has them: [float] and [jfloat] are IEEE 754
    binary32 values, [qreal] is a binary64 value, both as [spec_float] of the
    standard library with its executable operations. *)

From Stdlib Require Import ZArith List String Bool Lia.
From Stdlib Require Import Floats.SpecFloat.
From stdpp Require Import base option list gmap strings fin_maps.

Local Open Scope Z_scope.

(** ** IEEE 754 numbers *)

(** binary32: [float], [GLfloat], [jfloat]. *)
Abbreviation float32 := spec_float (only parsing).
(** binary64: [qreal], [double]. *)
Abbreviation qreal := spec_float (only parsing).

Definition f32_zero : float32 := S754_zero false.
Definition f32_one : float32 := Eval vm_compute in binary_normalize 24 128 1 0 false.
Definition f64_zero : qreal := S754_zero false.
Definition f64_one : qreal := Eval vm_compute in binary_normalize 53 1024 1 0 false.

(** [a == b] on floats. *)
Definition f32_eq (a b : float32) : bool := SFeqb a b.

(** [a + b] and [a - b] on [qreal]. *)
Definition qreal_add (a b : qreal) : qreal := SFadd 53 1024 a b.
Definition qreal_sub (a b : qreal) : qreal := SFsub 53 1024 a b.

(** The conversion [qreal] to [float] (an initialisation [float tmp = d], or
    a store into a [float] field): round to nearest, ties to even. *)
Definition qreal_to_float (x : qreal) : float32 :=
  match x with
  | S754_finite s m e => binary_normalize 24 128 (cond_Zopp s (Zpos m)) e s
  | _ => x
  end.

(** The conversion [float] to [qreal], which is exact. *)
Definition float_to_qreal (x : float32) : qreal :=
  match x with
  | S754_finite s m e => binary_normalize 53 1024 (cond_Zopp s (Zpos m)) e s
  | _ => x
  end.

Definition is_nan (x : spec_float) : bool :=
  match x with S754_nan => true | _ => false end.

(** Neither an infinity nor a NaN. *)
Definition is_finite (x : spec_float) : bool :=
  match x with
  | S754_zero _ | S754_finite _ _ _ => true
  | S754_infinity _ | S754_nan => false
  end.

(** ** Arrays of four, and [float m[4][4]] *)

Record Arr4 (A : Type) : Type := MkArr4 { a0 : A; a1 : A; a2 : A; a3 : A }.
Arguments MkArr4 {A} _ _ _ _.
Arguments a0 {A} _.
Arguments a1 {A} _.
Arguments a2 {A} _.
Arguments a3 {A} _.

Definition arr4_list {A} (x : Arr4 A) : list A := [a0 x; a1 x; a2 x; a3 x].

Definition arr4_of_list {A} (d : A) (l : list A) : Arr4 A :=
  MkArr4 (nth 0 l d) (nth 1 l d) (nth 2 l d) (nth 3 l d).

(** [f x[0] y[0] && f x[1] y[1] && f x[2] y[2] && f x[3] y[3]]. *)
Definition arr4_all2 {A} (f : A -> A -> bool) (x y : Arr4 A) : bool :=
  f (a0 x) (a0 y) && f (a1 x) (a1 y) && f (a2 x) (a2 y) && f (a3 x) (a3 y).

Definition arr4_exists {A} (f : A -> bool) (x : Arr4 A) : bool :=
  f (a0 x) || f (a1 x) || f (a2 x) || f (a3 x).

(** The sixteen floats of a [float[4][4]] in memory order. *)
Definition flat16 (m : Arr4 (Arr4 float32)) : list float32 :=
  arr4_list (a0 m) ++ arr4_list (a1 m) ++ arr4_list (a2 m) ++ arr4_list (a3 m).

Definition unflat16 (l : list float32) : Arr4 (Arr4 float32) :=
  MkArr4 (arr4_of_list f32_zero l)
         (arr4_of_list f32_zero (drop 4 l))
         (arr4_of_list f32_zero (drop 8 l))
         (arr4_of_list f32_zero (drop 12 l)).

(** A write of [src] at the start of the buffer [buf]: the elements of
    [buf] after it stay. *)
Definition write_buf {A} (src buf : list A) : list A :=
  src ++ drop (length src) buf.

(** ** QMatrix4x4

    Qt keeps [float m[4][4]] and [int flagBits]; [operator==] compares the
    sixteen floats with [==], in index order, and does not look at the
    flags.  [data()] hands out the floats and sets the flags to [General]. *)
Module QMatrix4x4.

Record t : Type := Mk { m : Arr4 (Arr4 float32); flagBits : Z }.

Definition Identity : Z := 0x0000.
Definition General : Z := 0x001f.

Definition identity_row (i : nat) : Arr4 float32 :=
  arr4_of_list f32_zero (<[i := f32_one]> (replicate 4 f32_zero)).

(** The default constructor. *)
Definition identity : t :=
  Mk (MkArr4 (identity_row 0) (identity_row 1) (identity_row 2) (identity_row 3))
     Identity.

(** [operator==]. *)
Definition eq (x y : t) : bool := arr4_all2 (arr4_all2 f32_eq) (m x) (m y).

(** Some entry is a NaN. *)
Definition has_nan (x : t) : bool := arr4_exists (arr4_exists is_nan) (m x).

(** What a caller that was given [data()] and stored [src] through it
    leaves behind. *)
Definition store_data (src : list float32) (x : t) : t :=
  Mk (unflat16 (write_buf src (flat16 (m x)))) General.

End QMatrix4x4.

(** ** struct State *)
Module State.

Record t : Type := Mk { uSTMatrix : QMatrix4x4.t }.

Definition compare (this other : t) : Z :=
  if QMatrix4x4.eq (uSTMatrix this) (uSTMatrix other) then 0 else -1.

End State.

(** ** QRectF

    Qt keeps the corner [xp], [yp] and the size [w], [h] as [qreal]; the
    edges are computed from them. *)
Module QRectF.

Record t : Type := Mk { xp : qreal; yp : qreal; w : qreal; h : qreal }.

Definition left (r : t) : qreal := xp r.
Definition top (r : t) : qreal := yp r.
Definition right (r : t) : qreal := qreal_add (xp r) (w r).
Definition bottom (r : t) : qreal := qreal_add (yp r) (h r).

(** [{ qreal diff = pos - yp; yp += diff; h -= diff; }] *)
Definition setTop (pos : qreal) (r : t) : t :=
  let diff := qreal_sub pos (yp r) in
  Mk (xp r) (qreal_add (yp r) diff) (w r) (qreal_sub (h r) diff).

(** [{ h = pos - yp; }] *)
Definition setBottom (pos : qreal) (r : t) : t :=
  Mk (xp r) (yp r) (w r) (qreal_sub pos (yp r)).

End QRectF.

(** ** Constants of the hosts *)

Abbreviation GLenum := Z (only parsing).
Abbreviation GLuint := Z (only parsing).
(** A JNI reference ([jobject], [jfloatArray]); 0 is [NULL]. *)
Abbreviation jobject := Z (only parsing).

Definition GL_TEXTURE_EXTERNAL_OES : GLenum := 0x8D65.
Definition GL_TEXTURE0 : GLenum := 0x84C0.
Definition GL_TEXTURE_MAG_FILTER : GLenum := 0x2800.
Definition GL_TEXTURE_MIN_FILTER : GLenum := 0x2801.
Definition GL_TEXTURE_WRAP_S : GLenum := 0x2802.
Definition GL_TEXTURE_WRAP_T : GLenum := 0x2803.
Definition GL_NEAREST : GLenum := 0x2600.
Definition GL_LINEAR : GLenum := 0x2601.
Definition GL_CLAMP_TO_EDGE : GLenum := 0x812F.

(** The conversion of an integer constant to [GLfloat]. *)
Definition GLfloat_of (z : Z) : float32 := binary_normalize 24 128 z 0 false.

(** [QSGNode::Flag] and [QSGNode::DirtyStateBit]. *)
Definition OwnedByParent : Z := 0x0001.
Definition UsePreprocess : Z := 0x0002.
Definition OwnsMaterial : Z := 0x00020000.
Definition DirtyGeometry : Z := 0x1000.
Definition DirtyMaterial : Z := 0x2000.
(** [QSGMaterial::Blending]. *)
Definition Blending : Z := 0x0001.
(** [QQuickItem::ItemHasContents]. *)
Definition ItemHasContents : Z := 0x08.

(** [flags | f] or [flags & ~f]: the [setFlag(f, enabled)] of Qt. *)
Definition setFlag (f : Z) (enabled : bool) (flags : Z) : Z :=
  if enabled then Z.lor flags f else Z.land flags (Z.lnot f).

(** Of [Qt::ConnectionType], the two kinds that differ in when the slot
    runs: at once in the caller, or later from the event loop of the
    receiver's thread. *)
Inductive ConnectionType : Type :=
| DirectConnection
| QueuedConnection.

(** An argument of a Java call. *)
Inductive jvalue : Type :=
| JInt (i : Z)
| JLong (l : Z)
| JRef (r : jobject).

(** ** The trace of host calls *)
Inductive Event : Type :=
| E_glGenTextures (n : Z) (names : list GLuint)
| E_glBindTexture (target : GLenum) (texture : GLuint)
| E_glTexParameterf (target pname : GLenum) (param : float32)
| E_glTexParameteri (target pname : GLenum) (param : Z)
| E_glActiveTexture (texture : GLenum)
| E_glDeleteTextures (n : Z) (names : list GLuint)
| E_NewFloatArray (len : Z) (res : jobject)
| E_NewGlobalRef (obj res : jobject)
| E_DeleteLocalRef (obj : jobject)
| E_DeleteGlobalRef (obj : jobject)
| E_GetFloatArrayRegion (array : jobject) (start len : Z)
| E_NewObject (className sig : string) (args : list jvalue) (res : jobject)
| E_callMethod (obj : jobject) (name sig : string) (args : list jvalue)
| E_invokeMethod (obj : Z) (member : string) (type : ConnectionType)
| E_updateTexturedRectGeometry (rect textureRect : QRectF.t)
| E_markDirty (bits : Z).

(** ** The GL context

    Only what the external-texture calls of the source touch.  A texture
    name is in use from [glGenTextures] (or a first bind) to
    [glDeleteTextures]; name 0 is the default texture. *)
Inductive TexParam : Type :=
| ParamF (v : float32)
| ParamI (v : Z).

Record GLState : Type := MkGL {
  gl_textures : gmap Z (gmap Z TexParam);   (* name -> pname -> value *)
  gl_active : Z;                            (* index of the active unit *)
  gl_bindings : gmap (Z * Z) Z              (* (unit, target) -> name *)
}.

(** ** The Java side

    The heap holds objects by identity; a JNI reference is a handle to one,
    local or global. *)
Inductive JObject : Type :=
| JFloatArray (elems : list float32)
| JSurfaceTexture (texName : Z) (listener : option Z)
    (transform : Arr4 (Arr4 float32)) (queued : list (Arr4 (Arr4 float32)))
| JSurfaceTextureListener (ptr : Z)
| JOpaque (className : string).

Record JRefEntry : Type := MkRef { ref_global : bool; ref_object : Z }.

Record JVMState : Type := MkJVM {
  jni_refs : gmap Z JRefEntry;
  java_heap : gmap Z JObject
}.

(** ** The Qt event loop: meta-calls posted to it, and slots run at once. *)
Record QtState : Type := MkQt {
  qt_posted : list (Z * string);
  qt_invoked : list (Z * string)
}.

Record World : Type := MkWorld {
  trace : list Event;
  gl : GLState;
  jvm : JVMState;
  qt : QtState
}.

Definition initial_world : World :=
  MkWorld [] (MkGL ∅ 0 ∅) (MkJVM ∅ ∅) (MkQt [] []).

(** ** The monad of the embedding *)
Definition M (A : Type) : Type := World -> A * World.

#[global] Instance M_ret : MRet M := fun A x w => (x, w).
#[global] Instance M_bind : MBind M :=
  fun A B f c w => let '(a, w') := c w in f a w'.

Definition emit (e : Event) : M unit :=
  fun w => (tt, MkWorld (trace w ++ [e]) (gl w) (jvm w) (qt w)).
Definition get_gl : M GLState := fun w => (gl w, w).
Definition put_gl (g : GLState) : M unit :=
  fun w => (tt, MkWorld (trace w) g (jvm w) (qt w)).
Definition get_jvm : M JVMState := fun w => (jvm w, w).
Definition put_jvm (j : JVMState) : M unit :=
  fun w => (tt, MkWorld (trace w) (gl w) j (qt w)).
Definition get_qt : M QtState := fun w => (qt w, w).
Definition put_qt (q : QtState) : M unit :=
  fun w => (tt, MkWorld (trace w) (gl w) (jvm w) q).

(** ** OpenGL ES calls *)

(** The texture bound to [target] on the active unit. *)
Definition gl_bound (target : GLenum) (g : GLState) : GLuint :=
  default 0 (gl_bindings g !! (gl_active g, target)).

(** A bind on the active unit; a name seen for the first time gets its
    texture object. *)
Definition gl_bind (target : GLenum) (texture : GLuint) (g : GLState) : GLState :=
  MkGL (match gl_textures g !! texture with
        | Some _ => gl_textures g
        | None => <[texture := ∅]> (gl_textures g)
        end)
       (gl_active g)
       (<[(gl_active g, target) := texture]> (gl_bindings g)).

Definition gl_set_param (target pname : GLenum) (v : TexParam) (g : GLState) : GLState :=
  let name := gl_bound target g in
  MkGL (<[name := <[pname := v]> (default ∅ (gl_textures g !! name))]> (gl_textures g))
       (gl_active g) (gl_bindings g).

(** The deletion of one name: 0 is ignored; a binding of the name falls
    back to 0 on every unit. *)
Definition gl_delete (g : GLState) (name : GLuint) : GLState :=
  if decide (name = 0) then g
  else MkGL (delete name (gl_textures g)) (gl_active g)
            ((fun b => if decide (b = name) then 0 else b) <$> gl_bindings g).

(** [n] names that are not in use and are not 0. *)
Definition gl_fresh (g : GLState) : GLuint := fresh ({[0]} ∪ dom (gl_textures g)).

Fixpoint gl_gen (n : nat) (g : GLState) : list GLuint * GLState :=
  match n with
  | O => ([], g)
  | S k =>
      let name := gl_fresh g in
      let '(names, g') :=
        gl_gen k (MkGL (<[name := ∅]> (gl_textures g)) (gl_active g) (gl_bindings g)) in
      (name :: names, g')
  end.

Definition glGenTextures (n : Z) : M (list GLuint) :=
  g ← get_gl;
  put_gl (gl_gen (Z.to_nat n) g).2;;
  emit (E_glGenTextures n (gl_gen (Z.to_nat n) g).1);;
  mret (gl_gen (Z.to_nat n) g).1.

Definition glBindTexture (target : GLenum) (texture : GLuint) : M unit :=
  emit (E_glBindTexture target texture);;
  g ← get_gl;
  put_gl (gl_bind target texture g).

Definition glTexParameterf (target pname : GLenum) (param : float32) : M unit :=
  emit (E_glTexParameterf target pname param);;
  g ← get_gl;
  put_gl (gl_set_param target pname (ParamF param) g).

Definition glTexParameteri (target pname : GLenum) (param : Z) : M unit :=
  emit (E_glTexParameteri target pname param);;
  g ← get_gl;
  put_gl (gl_set_param target pname (ParamI param) g).

Definition glActiveTexture (texture : GLenum) : M unit :=
  emit (E_glActiveTexture texture);;
  g ← get_gl;
  put_gl (if decide (GL_TEXTURE0 ≤ texture)
          then MkGL (gl_textures g) (texture - GL_TEXTURE0) (gl_bindings g)
          else g).

Definition glDeleteTextures (n : Z) (names : list GLuint) : M unit :=
  emit (E_glDeleteTextures n names);;
  g ← get_gl;
  put_gl (foldl gl_delete g (take (Z.to_nat n) names)).

(** ** JNI calls ([env->...]) *)

Definition fresh_ref (j : JVMState) : jobject := fresh ({[0]} ∪ dom (jni_refs j)).
Definition fresh_object (j : JVMState) : Z := fresh (dom (java_heap j)).

(** The object behind a reference. *)
Definition deref (j : JVMState) (r : jobject) : option Z :=
  ref_object <$> jni_refs j !! r.

Definition NewFloatArray (len : Z) : M jobject :=
  j ← get_jvm;
  let o := fresh_object j in
  let r := fresh_ref j in
  put_jvm (MkJVM (<[r := MkRef false o]> (jni_refs j))
                 (<[o := JFloatArray (replicate (Z.to_nat len) f32_zero)]> (java_heap j)));;
  emit (E_NewFloatArray len r);;
  mret r.

Definition NewGlobalRef (obj : jobject) : M jobject :=
  j ← get_jvm;
  match deref j obj with
  | Some o =>
      let r := fresh_ref j in
      put_jvm (MkJVM (<[r := MkRef true o]> (jni_refs j)) (java_heap j));;
      emit (E_NewGlobalRef obj r);;
      mret r
  | None => emit (E_NewGlobalRef obj 0);; mret 0
  end.

Definition delete_ref (global : bool) (r : jobject) (j : JVMState) : JVMState :=
  match jni_refs j !! r with
  | Some e =>
      if Bool.eqb (ref_global e) global
      then MkJVM (delete r (jni_refs j)) (java_heap j)
      else j
  | None => j
  end.

Definition DeleteLocalRef (obj : jobject) : M unit :=
  emit (E_DeleteLocalRef obj);;
  j ← get_jvm;
  put_jvm (delete_ref false obj j).

Definition DeleteGlobalRef (obj : jobject) : M unit :=
  emit (E_DeleteGlobalRef obj);;
  j ← get_jvm;
  put_jvm (delete_ref true obj j).

(** The float array behind a reference. *)
Definition float_array (j : JVMState) (r : jobject) : option (list float32) :=
  match deref j r ≫= (fun o => java_heap j !! o) with
  | Some (JFloatArray elems) => Some elems
  | _ => None
  end.

(** The floats of the region, or [None] where JNI raises
    [ArrayIndexOutOfBoundsException] and leaves the buffer alone. *)
Definition float_region (j : JVMState) (array : jobject) (start len : Z)
  : option (list float32) :=
  match float_array j array with
  | Some elems =>
      if decide (0 ≤ start ∧ 0 ≤ len ∧ start + len ≤ Z.of_nat (length elems))
      then Some (take (Z.to_nat len) (drop (Z.to_nat start) elems))
      else None
  | None => None
  end.

Definition GetFloatArrayRegion (array : jobject) (start len : Z)
  : M (option (list float32)) :=
  emit (E_GetFloatArrayRegion array start len);;
  j ← get_jvm;
  mret (float_region j array start len).

(** ** Java objects and QAndroidJniObject

    A [QAndroidJniObject] holds a global reference to its Java object; an
    invalid one holds [NULL].  Copies share the reference. *)
Record QAndroidJniObject : Type := MkJniObject { object : jobject }.

Definition identity_transform : Arr4 (Arr4 float32) :=
  QMatrix4x4.m QMatrix4x4.identity.

(** What [new className(args)] builds. *)
Definition java_new (className : string) (args : list jvalue) : JObject :=
  if String.eqb className "android/graphics/SurfaceTexture" then
    match args with
    | [JInt texName] => JSurfaceTexture texName None identity_transform []
    | _ => JOpaque className
    end
  else if String.eqb className "com/kdab/android/SurfaceTextureListener" then
    match args with
    | [JLong ptr] => JSurfaceTextureListener ptr
    | _ => JOpaque className
    end
  else JOpaque className.

(** [QAndroidJniObject(className, sig, args...)]. *)
Definition QAndroidJniObject_new (className sig : string) (args : list jvalue)
  : M QAndroidJniObject :=
  j ← get_jvm;
  let o := fresh_object j in
  let r := fresh_ref j in
  put_jvm (MkJVM (<[r := MkRef true o]> (jni_refs j))
                 (<[o := java_new className args]> (java_heap j)));;
  emit (E_NewObject className sig args r);;
  mret (MkJniObject r).

(** The methods of [android.graphics.SurfaceTexture] the source calls, on
    the GL context and the Java side.

    - [updateTexImage] latches the most recent queued frame, with its
      transform, and binds the texture to the external target of the active
      unit;
    - [getTransformMatrix(float[] mtx)] stores the sixteen floats of the
      latched transform into [mtx], which has to have sixteen elements;
    - [setOnFrameAvailableListener] keeps the listener. *)
Definition java_invoke (o : Z) (name : string) (args : list jvalue)
  (g : GLState) (j : JVMState) : GLState * JVMState :=
  match java_heap j !! o with
  | Some (JSurfaceTexture texName listener transform queued) =>
      if String.eqb name "updateTexImage" then
        (gl_bind GL_TEXTURE_EXTERNAL_OES texName g,
         MkJVM (jni_refs j)
               (<[o := JSurfaceTexture texName listener
                         (default transform (last queued)) []]> (java_heap j)))
      else if String.eqb name "getTransformMatrix" then
        match args with
        | [JRef mtx] =>
            match deref j mtx with
            | Some a =>
                match java_heap j !! a with
                | Some (JFloatArray elems) =>
                    if decide (length elems = 16%nat) then
                      (g, MkJVM (jni_refs j)
                                (<[a := JFloatArray (flat16 transform)]> (java_heap j)))
                    else (g, j)
                | _ => (g, j)
                end
            | None => (g, j)
            end
        | _ => (g, j)
        end
      else if String.eqb name "setOnFrameAvailableListener" then
        match args with
        | [JRef l] =>
            (g, MkJVM (jni_refs j)
                      (<[o := JSurfaceTexture texName (deref j l) transform queued]>
                         (java_heap j)))
        | _ => (g, j)
        end
      else (g, j)
  | _ => (g, j)
  end.

(** A call through a reference; a stale or [NULL] reference reaches no
    object. *)
Definition java_call (obj : jobject) (name : string) (args : list jvalue)
  (g : GLState) (j : JVMState) : GLState * JVMState :=
  match deref j obj with
  | Some o => java_invoke o name args g j
  | None => (g, j)
  end.

(** [obj.callMethod<void>(name, sig, args...)]. *)
Definition callMethod (obj : QAndroidJniObject) (name sig : string)
  (args : list jvalue) : M unit :=
  emit (E_callMethod (object obj) name sig args);;
  g ← get_gl;
  j ← get_jvm;
  put_gl (java_call (object obj) name args g j).1;;
  put_jvm (java_call (object obj) name args g j).2.

(** The producer of the stream (camera, decoder) queues a frame that comes
    with the transform [mtx]. *)
Definition queue_frame (o : Z) (mtx : Arr4 (Arr4 float32)) (j : JVMState) : JVMState :=
  match java_heap j !! o with
  | Some (JSurfaceTexture texName listener transform queued) =>
      MkJVM (jni_refs j)
            (<[o := JSurfaceTexture texName listener transform (queued ++ [mtx])]>
               (java_heap j))
  | _ => j
  end.

(** ** QMetaObject::invokeMethod

    A queued call is posted to the event loop of the object's thread and
    runs later; a direct one has run when [invokeMethod] returns. *)
Definition invokeMethod (obj : Z) (member : string) (type : ConnectionType) : M unit :=
  emit (E_invokeMethod obj member type);;
  q ← get_qt;
  put_qt (match type with
          | QueuedConnection =>
              MkQt (qt_posted q ++ [(obj, member)]) (qt_invoked q)
          | DirectConnection =>
              MkQt (qt_posted q) (qt_invoked q ++ [(obj, member)])
          end).

(** ** Scene-graph values *)

Record TexturedPoint2D : Type := MkPoint { x : float32; y : float32; tx : float32; ty : float32 }.

(** A [QSGGeometry] of four textured points. *)
Record QSGGeometry : Type := MkGeometry { vertexData : Arr4 TexturedPoint2D }.

(** [QSGGeometry(defaultAttributes_TexturedPoint2D(), 4)]: the vertex data
    starts indeterminate; the model fills it with zeros. *)
Definition QSGGeometry_new : QSGGeometry :=
  let o := MkPoint f32_zero f32_zero f32_zero f32_zero in
  MkGeometry (MkArr4 o o o o).

Definition corner (px py ptx pty : qreal) : TexturedPoint2D :=
  MkPoint (qreal_to_float px) (qreal_to_float py)
          (qreal_to_float ptx) (qreal_to_float pty).

(** The four vertices [updateTexturedRectGeometry] writes: top left, bottom
    left, top right, bottom right. *)
Definition rect_geometry (rect textureRect : QRectF.t) : QSGGeometry :=
  MkGeometry (MkArr4
    (corner (QRectF.left rect) (QRectF.top rect)
            (QRectF.left textureRect) (QRectF.top textureRect))
    (corner (QRectF.left rect) (QRectF.bottom rect)
            (QRectF.left textureRect) (QRectF.bottom textureRect))
    (corner (QRectF.right rect) (QRectF.top rect)
            (QRectF.right textureRect) (QRectF.top textureRect))
    (corner (QRectF.right rect) (QRectF.bottom rect)
            (QRectF.right textureRect) (QRectF.bottom textureRect))).

(** [QSGGeometry::updateTexturedRectGeometry(g, rect, textureRect)]: all
    four vertices of [g] are overwritten. *)
Definition updateTexturedRectGeometry (g : QSGGeometry) (rect textureRect : QRectF.t)
  : M QSGGeometry :=
  emit (E_updateTexturedRectGeometry rect textureRect);;
  mret (rect_geometry rect textureRect).

(** [node->markDirty(bits)]: a notice to the renderer. *)
Definition markDirty (bits : Z) : M unit := emit (E_markDirty bits).

(** [QSGSimpleMaterial<State>]. *)
Record QSGSimpleMaterial : Type := MkMaterial { mat_flags : Z; state : State.t }.

(** ** QOpenGLShaderProgram

    The linked program: the locations of its active uniforms by name, and
    the value each location holds.  [uniformLocation] gives -1 for a name
    that is not an active uniform.  A value set at -1, or at a location
    that is not one of the program's, is dropped. *)
Inductive UniformValue : Type :=
| UniformMatrix (floats : list float32)
| UniformInt (v : Z).

Record ShaderProgram : Type := MkProgram {
  uniform_locations : gmap string Z;
  uniform_values : gmap Z UniformValue
}.

Definition uniformLocation (name : string) (p : ShaderProgram) : Z :=
  default (-1) (uniform_locations p !! name).

Definition is_location (p : ShaderProgram) (location : Z) : Prop :=
  location <> -1 /\ map_Exists (fun _ l => l = location) (uniform_locations p).

#[global] Instance is_location_dec p location : Decision (is_location p location).
Proof. unfold is_location. apply _. Defined.

(** [program()->setUniformValue(location, value)]. *)
Definition setUniformValue (location : Z) (v : UniformValue) (p : ShaderProgram)
  : ShaderProgram :=
  if decide (is_location p location)
  then MkProgram (uniform_locations p) (<[location := v]> (uniform_values p))
  else p.

(** [program()->setUniformValue(name, value)]. *)
Definition setUniformValue_named (name : string) (v : UniformValue) (p : ShaderProgram)
  : ShaderProgram :=
  setUniformValue (uniformLocation name p) v p.

(** ** class SurfaceTextureShader *)
Module SurfaceTextureShader.

(** [attributes()]. *)
Definition attributes : list string := ["aPosition"; "aTextureCoord"]%string.

(** [createMaterial()], from QSG_DECLARE_SIMPLE_COMPARABLE_SHADER: a
    material with a default-constructed [State]. *)
Definition createMaterial : QSGSimpleMaterial :=
  MkMaterial 0 (State.Mk QMatrix4x4.identity).

(** The shader object: its one member. *)
Record t : Type := Mk { m_uSTMatrixLoc : Z }.

(** [updateState(state, old)]: the sixteen floats of the matrix go to the
    location found by [resolveUniforms]. *)
Definition updateState (this : t) (state old : State.t) (p : ShaderProgram)
  : ShaderProgram :=
  setUniformValue (m_uSTMatrixLoc this)
    (UniformMatrix (flat16 (QMatrix4x4.m (State.uSTMatrix state)))) p.

(** [resolveUniforms()]: the shader after the call, and the program. *)
Definition resolveUniforms (this : t) (p : ShaderProgram) : t * ShaderProgram :=
  (Mk (uniformLocation "uSTMatrix" p),
   setUniformValue_named "sTexture" (UniformInt 0) p).

End SurfaceTextureShader.

(** ** class SurfaceTextureNode : public QSGGeometryNode *)
Module SurfaceTextureNode.

(** [flags] and [material] are the state of the base class the source
    reads and writes; [geometry()] is [&m_geometry] from the constructor
    on. *)
Record t : Type := Mk {
  flags : Z;
  material : option QSGSimpleMaterial;
  m_surfaceTexture : QAndroidJniObject;
  m_geometry : QSGGeometry;
  m_uSTMatrixArray : jobject;
  m_textureId : GLuint
}.

Definition set_material (mat : option QSGSimpleMaterial) (n : t) : t :=
  Mk (flags n) mat (m_surfaceTexture n) (m_geometry n) (m_uSTMatrixArray n)
     (m_textureId n).

Definition set_geometry (g : QSGGeometry) (n : t) : t :=
  Mk (flags n) (material n) (m_surfaceTexture n) g (m_uSTMatrixArray n)
     (m_textureId n).

(** [SurfaceTextureNode(surfaceTexture, textureId)].  A fresh [QSGNode] is
    [OwnedByParent]; [setGeometry(&m_geometry)] and [setMaterial(material)]
    are the fields [m_geometry] and [material] of the result.  The
    [QAndroidJniEnvironment] only gives access to [env]. *)
Definition ctor (surfaceTexture : QAndroidJniObject) (textureId : GLuint) : M t :=
  (* : QSGGeometryNode(), m_geometry(defaultAttributes_TexturedPoint2D(), 4) *)
  let flags := OwnedByParent in
  let geometry := QSGGeometry_new in
  (* setFlag(UsePreprocess) *)
  let flags := setFlag UsePreprocess true flags in
  (* material = createMaterial(); material->setFlag(Blending, false) *)
  let material := SurfaceTextureShader.createMaterial in
  let material := MkMaterial (setFlag Blending false (mat_flags material)) (state material) in
  (* setFlag(OwnsMaterial) *)
  let flags := setFlag OwnsMaterial true flags in
  (* array = env->NewFloatArray(16) *)
  array ← NewFloatArray 16;
  (* m_uSTMatrixArray = jfloatArray(env->NewGlobalRef(array)) *)
  uSTMatrixArray ← NewGlobalRef array;
  (* env->DeleteLocalRef(array) *)
  DeleteLocalRef array;;
  mret (Mk flags (Some material) surfaceTexture geometry uSTMatrixArray textureId).

(** [~SurfaceTextureNode()]. *)
Definition dtor (this : t) : M unit :=
  DeleteGlobalRef (m_uSTMatrixArray this).

(** [void SurfaceTextureNode::preprocess()].  [callMethod<void>(name)]
    has the signature ["()V"].  [uSTMatrix.data()] is taken before the region
    is copied, so the matrix is flagged [General] in any case; a region that
    cannot be read leaves the floats as they were. *)
Definition preprocess (this : t) : M t :=
  match material this with
  | None => mret this
  | Some mat =>
      callMethod (m_surfaceTexture this) "updateTexImage" "()V" [];;
      callMethod (m_surfaceTexture this) "getTransformMatrix" "([F)V"
                 [JRef (m_uSTMatrixArray this)];;
      region ← GetFloatArrayRegion (m_uSTMatrixArray this) 0 16;
      let uSTMatrix :=
        QMatrix4x4.store_data (default [] region) (State.uSTMatrix (state mat)) in
      glActiveTexture GL_TEXTURE0;;
      glBindTexture GL_TEXTURE_EXTERNAL_OES (m_textureId this);;
      mret (set_material (Some (MkMaterial (mat_flags mat) (State.Mk uSTMatrix))) this)
  end.

End SurfaceTextureNode.

(** ** The JNI callback

    [Java_com_kdab_android_SurfaceTextureListener_frameAvailable(env, thiz,
    ptr, surfaceTexture)]; [ptr] is the address of the item. *)
Definition Java_com_kdab_android_SurfaceTextureListener_frameAvailable
  (env thiz : Z) (ptr : Z) (surfaceTexture : jobject) : M unit :=
  invokeMethod ptr "update" QueuedConnection.

(** ** class QSurfaceTexture : public QQuickItem *)
Module QSurfaceTexture.

(** [this] is the address of the item; [flags], [width] and [height] are
    the state of [QQuickItem] the source uses. *)
Record t : Type := Mk {
  this : Z;
  flags : Z;
  width : qreal;
  height : qreal;
  m_textureId : GLuint;
  m_surfaceTexture : QAndroidJniObject
}.

(** Modelled from the spec: the member initialisers of the class, which
    are in [qsurfacetexture.h]: the texture id of an item that was never
    painted "is still 0", and its [QAndroidJniObject] is default-constructed,
    hence invalid. *)
Definition initial_textureId : GLuint := 0.
Definition initial_surfaceTexture : QAndroidJniObject := MkJniObject 0.

(** [QSurfaceTexture(parent)], for the item allocated at [addr]. *)
Definition ctor (addr : Z) (parent : Z) : t :=
  Mk addr ItemHasContents f64_zero f64_zero initial_textureId initial_surfaceTexture.

(** [~QSurfaceTexture()]. *)
Definition dtor (it : t) : M unit :=
  if decide (m_textureId it ≠ 0) then
    glBindTexture GL_TEXTURE_EXTERNAL_OES 0;;
    glDeleteTextures 1 [m_textureId it]
  else mret tt.

(** [QQuickItem::boundingRect()]: [QRectF(0, 0, width, height)]. *)
Definition boundingRect (it : t) : QRectF.t :=
  QRectF.Mk f64_zero f64_zero (width it) (height it).

(** The first-paint branch of [updatePaintNode], [if (!node) { ... }]. *)
Definition create (it : t) : M (t * SurfaceTextureNode.t) :=
  names ← glGenTextures 1;
  let textureId := hd (m_textureId it) names in
  glBindTexture GL_TEXTURE_EXTERNAL_OES textureId;;
  glTexParameterf GL_TEXTURE_EXTERNAL_OES GL_TEXTURE_MIN_FILTER (GLfloat_of GL_NEAREST);;
  glTexParameterf GL_TEXTURE_EXTERNAL_OES GL_TEXTURE_MAG_FILTER (GLfloat_of GL_LINEAR);;
  glTexParameteri GL_TEXTURE_EXTERNAL_OES GL_TEXTURE_WRAP_S GL_CLAMP_TO_EDGE;;
  glTexParameteri GL_TEXTURE_EXTERNAL_OES GL_TEXTURE_WRAP_T GL_CLAMP_TO_EDGE;;
  surfaceTexture ← QAndroidJniObject_new "android/graphics/SurfaceTexture" "(I)V"
                     [JInt textureId];
  listener ← QAndroidJniObject_new "com/kdab/android/SurfaceTextureListener" "(J)V"
               [JLong (this it)];
  callMethod surfaceTexture "setOnFrameAvailableListener"
             "(Landroid/graphics/SurfaceTexture$OnFrameAvailableListener;)V"
             [JRef (object listener)];;
  node ← SurfaceTextureNode.ctor surfaceTexture textureId;
  mret (Mk (this it) (flags it) (width it) (height it) textureId surfaceTexture, node).

(** The rectangle of the "flip vertical" lines; [tmp] is a [float], the
    edges of a [QRectF] are [qreal]. *)
Definition flipped (rect : QRectF.t) : QRectF.t :=
  (* float tmp = rect.top() *)
  let tmp : float32 := qreal_to_float (QRectF.top rect) in
  (* rect.setTop(rect.bottom()) *)
  let rect := QRectF.setTop (QRectF.bottom rect) rect in
  (* rect.setBottom(tmp) *)
  QRectF.setBottom (float_to_qreal tmp) rect.

Definition unit_square : QRectF.t := QRectF.Mk f64_zero f64_zero f64_one f64_one.

(** [updatePaintNode(n, data)]: the item after the call, and the node that
    is returned; [n] is [None] for a null pointer. *)
Definition updatePaintNode (it : t) (n : option SurfaceTextureNode.t)
  : M (t * SurfaceTextureNode.t) :=
  '(it, node) ← match n with
                | None => create it
                | Some node => mret (it, node)
                end;
  let rect := flipped (boundingRect it) in
  g ← updateTexturedRectGeometry (SurfaceTextureNode.m_geometry node) rect unit_square;
  markDirty (Z.lor DirtyGeometry DirtyMaterial);;
  mret (it, SurfaceTextureNode.set_geometry g node).

End QSurfaceTexture.


(** ** Readings of a trace *)

(** The float arrays allocated: length and local reference. *)
Definition float_arrays_allocated (tr : list Event) : list (Z * jobject) :=
  omap (fun e => match e with E_NewFloatArray len r => Some (len, r) | _ => None end) tr.

(** The calls of [glTexParameterf] and [glTexParameteri]. *)
Definition is_texparam_call (e : Event) : bool :=
  match e with
  | E_glTexParameterf _ _ _ | E_glTexParameteri _ _ _ => true
  | _ => false
  end.

Definition texparam_calls (tr : list Event) : list Event :=
  List.filter is_texparam_call tr.

(** The calls to OpenGL. *)
Definition is_gl_call (e : Event) : bool :=
  match e with
  | E_glGenTextures _ _ | E_glBindTexture _ _ | E_glTexParameterf _ _ _
  | E_glTexParameteri _ _ _ | E_glActiveTexture _ | E_glDeleteTextures _ _ => true
  | _ => false
  end.

Definition gl_calls (tr : list Event) : list Event :=
  List.filter is_gl_call tr.

(** The rectangles handed to [updateTexturedRectGeometry]. *)
Definition geometry_calls (tr : list Event) : list (QRectF.t * QRectF.t) :=
  omap (fun e => match e with
                 | E_updateTexturedRectGeometry r t => Some (r, t)
                 | _ => None
                 end) tr.

(** The reference [r] stands for a float array of sixteen elements. *)
Definition is_array16 (j : JVMState) (r : jobject) : Prop :=
  exists elems, float_array j r = Some elems /\ length elems = 16%nat.

(** The calls that create a GL texture name or a Java object. *)
Definition is_creation (e : Event) : bool :=
  match e with
  | E_glGenTextures _ _ | E_NewObject _ _ _ _ => true
  | _ => false
  end.

Definition creation_calls (tr : list Event) : list Event :=
  List.filter is_creation tr.

(** ** The renderer, frame after frame

    Before each [preprocess] the producer has queued the frames of one
    batch on the SurfaceTexture object [o]. *)
Fixpoint render (o : Z) (batches : list (list (Arr4 (Arr4 float32))))
  (n : SurfaceTextureNode.t) : M SurfaceTextureNode.t :=
  match batches with
  | [] => mret n
  | batch :: rest =>
      j ← get_jvm;
      put_jvm (foldl (fun j mtx => queue_frame o mtx j) j batch);;
      n' ← SurfaceTextureNode.preprocess n;
      render o rest n'
  end.

(** The parameters a texture has after the first paint. *)
Definition first_paint_params : gmap Z TexParam :=
  <[GL_TEXTURE_WRAP_T := ParamI GL_CLAMP_TO_EDGE]>
    (<[GL_TEXTURE_WRAP_S := ParamI GL_CLAMP_TO_EDGE]>
       (<[GL_TEXTURE_MAG_FILTER := ParamF (GLfloat_of GL_LINEAR)]>
          (<[GL_TEXTURE_MIN_FILTER := ParamF (GLfloat_of GL_NEAREST)]> ∅))).

(** ** Sample values *)

(** A state whose matrix is the identity but for a NaN in [m[0][0]]. *)
Definition nan_state : State.t :=
  State.Mk (QMatrix4x4.Mk
    (MkArr4 (MkArr4 S754_nan f32_zero f32_zero f32_zero)
            (QMatrix4x4.identity_row 1) (QMatrix4x4.identity_row 2)
            (QMatrix4x4.identity_row 3))
    QMatrix4x4.General).

(** Two states that [compare] takes for equal and that differ: a zero of
    the other sign, and other flags. *)
Definition signed_zero_state : State.t :=
  State.Mk (QMatrix4x4.Mk
    (MkArr4 (MkArr4 f32_one (S754_zero true) f32_zero f32_zero)
            (QMatrix4x4.identity_row 1) (QMatrix4x4.identity_row 2)
            (QMatrix4x4.identity_row 3))
    QMatrix4x4.General).

(** An item of 640 by 480, not painted yet. *)
Definition sample_item : QSurfaceTexture.t :=
  QSurfaceTexture.Mk 4096 ItemHasContents
    (binary_normalize 53 1024 640 0 false) (binary_normalize 53 1024 480 0 false)
    QSurfaceTexture.initial_textureId QSurfaceTexture.initial_surfaceTexture.

(** The same item with an infinite height. *)
Definition endless_item : QSurfaceTexture.t :=
  QSurfaceTexture.Mk 4096 ItemHasContents
    (binary_normalize 53 1024 640 0 false) (S754_infinity false)
    QSurfaceTexture.initial_textureId QSurfaceTexture.initial_surfaceTexture.

(** The first paint of [sample_item]. *)
Definition first_paint : QSurfaceTexture.t * SurfaceTextureNode.t * World :=
  QSurfaceTexture.updatePaintNode sample_item None initial_world.

Definition painted_item : QSurfaceTexture.t := first_paint.1.1.
Definition painted_node : SurfaceTextureNode.t := first_paint.1.2.
Definition painted_world : World := first_paint.2.

(** The transform that comes with a frame: the flip about the horizontal
    axis, [1 0 0 0 / 0 -1 0 0 / 0 0 1 0 / 0 1 0 1]. *)
Definition flip_transform : Arr4 (Arr4 float32) :=
  MkArr4 (MkArr4 f32_one f32_zero f32_zero f32_zero)
         (MkArr4 f32_zero (SFopp f32_one) f32_zero f32_zero)
         (MkArr4 f32_zero f32_zero f32_one f32_zero)
         (MkArr4 f32_zero f32_one f32_zero f32_one).

(** The Java object of the painted item's SurfaceTexture. *)
Definition painted_texture_object : Z :=
  default 0 (deref (jvm painted_world)
                   (object (QSurfaceTexture.m_surfaceTexture painted_item))).

(** The world after the first paint, with one frame queued. *)
Definition frame_world : World :=
  MkWorld (trace painted_world) (gl painted_world)
          (queue_frame painted_texture_object flip_transform (jvm painted_world))
          (qt painted_world).

(** The material the constructor gives a node. *)
Definition painted_material : QSGSimpleMaterial :=
  MkMaterial (setFlag Blending false 0) (State.Mk QMatrix4x4.identity).

(** A node without a material. *)
Definition bare_node : SurfaceTextureNode.t :=
  SurfaceTextureNode.set_material None painted_node.

(** ** Floats that [==] takes for equal

    Two floats are [==] when neither is a NaN and they are the same value,
    the two zeros counting as one. *)
Definition is_zero (x : spec_float) : bool :=
  match x with S754_zero _ => true | _ => false end.

Definition same_number (a b : float32) : Prop :=
  is_nan a = false /\ is_nan b = false
  /\ (a = b \/ (is_zero a = true /\ is_zero b = true)).

(** The identity as [data()] leaves it: the same floats, flagged [General]. *)
Definition general_identity_state : State.t :=
  State.Mk (QMatrix4x4.Mk (QMatrix4x4.m QMatrix4x4.identity) QMatrix4x4.General).

(** ** A node in working order

    In the world [w] the node has a material, its array reference stands
    for sixteen floats, and its SurfaceTexture reference stands for the live
    SurfaceTexture object [o] on the texture of the node, with [transform]
    latched and the frames [queued] waiting. *)
Definition node_serves (n : SurfaceTextureNode.t) (w : World) (o : Z)
  (transform : Arr4 (Arr4 float32)) (queued : list (Arr4 (Arr4 float32))) : Prop :=
  SurfaceTextureNode.material n <> None
  /\ is_array16 (jvm w) (SurfaceTextureNode.m_uSTMatrixArray n)
  /\ deref (jvm w) (object (SurfaceTextureNode.m_surfaceTexture n)) = Some o
  /\ exists listener,
       java_heap (jvm w) !! o
       = Some (JSurfaceTexture (SurfaceTextureNode.m_textureId n) listener
                 transform queued).

Definition node_ok (n : SurfaceTextureNode.t) (w : World) : Prop :=
  exists o transform queued, node_serves n w o transform queued.

(** The sixteen floats of the matrix in the material of a node. *)
Definition node_matrix (n : SurfaceTextureNode.t) : option (list float32) :=
  (fun mat => flat16 (QMatrix4x4.m (State.uSTMatrix (state mat))))
    <$> SurfaceTextureNode.material n.

(** The texture a sampler uniform reads: the one bound to the external
    target of the unit the uniform names. *)
Definition sampled_texture (name : string) (p : ShaderProgram) (g : GLState)
  : option GLuint :=
  match uniform_values p !! uniformLocation name p with
  | Some (UniformInt unit) => gl_bindings g !! (unit, GL_TEXTURE_EXTERNAL_OES)
  | _ => None
  end.


(** The calls of [updateState] over the materials drawn in a row with one
    shader.  The second argument, the state drawn before, is not read by
    [updateState]; it is given the same state here. *)
Fixpoint updateStates (this : SurfaceTextureShader.t) (states : list State.t)
  (p : ShaderProgram) : ShaderProgram :=
  match states with
  | [] => p
  | s :: rest => updateStates this rest (SurfaceTextureShader.updateState this s s p)
  end.

(** ** Further sample values *)

(** A linked program with the four uniforms of the two shaders. *)
Definition sample_program : ShaderProgram :=
  MkProgram (<["qt_Matrix" := 0]> (<["uSTMatrix" := 1]> (<["sTexture" := 2]>
               (<["qt_Opacity" := 3]> ∅)))) ∅.

(** A program whose vertex shader does not use [uSTMatrix]. *)
Definition plain_program : ShaderProgram :=
  MkProgram (<["qt_Matrix" := 0]> (<["sTexture" := 1]> (<["qt_Opacity" := 2]> ∅))) ∅.

(** A shader before [resolveUniforms]; the location is whatever the memory
    held. *)
Definition sample_shader : SurfaceTextureShader.t := SurfaceTextureShader.Mk 77.

(** ** Tactics

    [run] unfolds the monad and the host calls; [open_world] takes the
    world apart so that the projections compute; [trace_norm] brings a
    trace to the form [tr ++ [e1; ...; en]]. *)
Ltac run :=
  cbv beta iota zeta delta
    [mbind mret M_bind M_ret emit get_gl put_gl get_jvm put_jvm get_qt put_qt
     glGenTextures glBindTexture glTexParameterf glTexParameteri glActiveTexture
     glDeleteTextures NewFloatArray NewGlobalRef DeleteLocalRef DeleteGlobalRef
     GetFloatArrayRegion QAndroidJniObject_new callMethod invokeMethod
     updateTexturedRectGeometry markDirty trace gl jvm qt
     gl_textures gl_active gl_bindings jni_refs java_heap qt_posted qt_invoked];
  cbn [fst snd trace gl jvm qt gl_textures gl_active gl_bindings jni_refs
       java_heap qt_posted qt_invoked].

(** The world, the GL context and the Java side taken apart, so that the
    projections compute. *)
Ltac open_world w :=
  let tr := fresh "tr" in
  let textures := fresh "textures" in
  let active := fresh "active" in
  let bindings := fresh "bindings" in
  let refs := fresh "refs" in
  let heap := fresh "heap" in
  let q := fresh "q" in
  destruct w as [tr [textures active bindings] [refs heap] q].

Ltac trace_norm := rewrite <- ?app_assoc; cbn [app].

Ltac java_cases :=
  unfold java_call, java_invoke;
  repeat match goal with
         | |- context [match ?x with _ => _ end] => destruct x eqn:?
         end;
  cbn [fst snd jni_refs java_heap gl_active gl_bind].

(** * Properties *)

(** ** Floating-point comparison *)

Lemma SFcompare_antisym (a b : spec_float) :
  SFcompare a b = CompOpp <$> SFcompare b a.
Proof.
  destruct a as [[]|[]| |[] ma ea], b as [[]|[]| |[] mb eb]; try reflexivity;
    cbn; rewrite (Z.compare_antisym ea eb);
    destruct (ea ?= eb); cbn; try reflexivity;
    pose proof (Pos.compare_cont_antisym ma mb Eq) as H; cbn in H;
    rewrite <- H; destruct (Pos.compare_cont Eq ma mb); reflexivity.
Qed.

Lemma f32_eq_sym (a b : float32) : f32_eq a b = f32_eq b a.
Proof.
  unfold f32_eq, SFeqb. rewrite (SFcompare_antisym a b).
  destruct (SFcompare b a) as [[]|]; reflexivity.
Qed.

Lemma f32_eq_refl (a : float32) : f32_eq a a = negb (is_nan a).
Proof.
  unfold f32_eq, SFeqb.
  destruct a as [[]|[]| |[] ma ea]; try reflexivity;
    cbn; rewrite Z.compare_refl; rewrite Pos.compare_cont_refl; reflexivity.
Qed.

Lemma arr4_all2_sym {A} (f : A -> A -> bool) (x y : Arr4 A) :
  (forall a b, f a b = f b a) -> arr4_all2 f x y = arr4_all2 f y x.
Proof.
  intros Hf. unfold arr4_all2.
  rewrite (Hf (a0 x)), (Hf (a1 x)), (Hf (a2 x)), (Hf (a3 x)). reflexivity.
Qed.

Lemma arr4_all2_refl {A} (f : A -> A -> bool) (g : A -> bool) (x : Arr4 A) :
  (forall a, f a a = negb (g a)) -> arr4_all2 f x x = negb (arr4_exists g x).
Proof.
  intros Hf. unfold arr4_all2, arr4_exists. rewrite !Hf.
  destruct (g (a0 x)), (g (a1 x)), (g (a2 x)), (g (a3 x)); reflexivity.
Qed.

Lemma QMatrix4x4_eq_sym (a b : QMatrix4x4.t) : QMatrix4x4.eq a b = QMatrix4x4.eq b a.
Proof.
  apply arr4_all2_sym. intros r1 r2. apply arr4_all2_sym, f32_eq_sym.
Qed.

Lemma QMatrix4x4_eq_refl (a : QMatrix4x4.t) :
  QMatrix4x4.eq a a = negb (QMatrix4x4.has_nan a).
Proof.
  apply arr4_all2_refl. intros r. apply arr4_all2_refl, f32_eq_refl.
Qed.

(** [operator==] is the entrywise [==] of the sixteen floats. *)
Lemma QMatrix4x4_eq_entrywise (a b : QMatrix4x4.t) :
  QMatrix4x4.eq a b = true <->
  Forall2 (fun u v => f32_eq u v = true)
          (flat16 (QMatrix4x4.m a)) (flat16 (QMatrix4x4.m b)).
Proof.
  unfold QMatrix4x4.eq, arr4_all2, flat16, arr4_list. cbn [app].
  rewrite !andb_true_iff. split.
  - intros [[[[[[H0 H1] H2] H3] [[[H4 H5] H6] H7]] [[[H8 H9] H10] H11]]
              [[[H12 H13] H14] H15]].
    repeat (constructor; [assumption|]). constructor.
  - intros H. repeat (apply Forall2_cons_1 in H; destruct H as [? H]). tauto.
Qed.

Example compare_identity_signed_zero :
  State.compare (State.Mk QMatrix4x4.identity) signed_zero_state = 0
  /\ State.Mk QMatrix4x4.identity <> signed_zero_state.
Proof. split; [reflexivity | discriminate]. Qed.

(** C8, as the code has it: [State::compare] returns 0 exactly when
    [QMatrix4x4::operator==] holds of the two matrices, that is when the
    sixteen floats are pairwise [==], and -1 otherwise; its zero/non-zero
    outcome is symmetric; and [compare] of a state with itself, or with a
    copy that has the same matrix, is 0 exactly when no entry of the matrix
    is a NaN. *)
Theorem State_compare_spec (s t : State.t) :
  (State.compare s t = 0 <->
     Forall2 (fun u v => f32_eq u v = true)
             (flat16 (QMatrix4x4.m (State.uSTMatrix s)))
             (flat16 (QMatrix4x4.m (State.uSTMatrix t))))
  /\ (State.compare s t <> 0 -> State.compare s t = -1)
  /\ (State.compare s t = 0 <-> State.compare t s = 0)
  /\ (State.uSTMatrix s = State.uSTMatrix t ->
      (State.compare s t = 0 <-> QMatrix4x4.has_nan (State.uSTMatrix s) = false)).
Proof.
  unfold State.compare. repeat split.
  - destruct (QMatrix4x4.eq _ _) eqn:E; [intros _|discriminate].
    apply QMatrix4x4_eq_entrywise, E.
  - intros H. apply QMatrix4x4_eq_entrywise in H. rewrite H. reflexivity.
  - destruct (QMatrix4x4.eq _ _); congruence.
  - rewrite (QMatrix4x4_eq_sym (State.uSTMatrix t)). tauto.
  - rewrite (QMatrix4x4_eq_sym (State.uSTMatrix t)). tauto.
  - rewrite <- H, QMatrix4x4_eq_refl.
    destruct (QMatrix4x4.has_nan _); [discriminate|reflexivity].
  - rewrite <- H, QMatrix4x4_eq_refl. intros ->. reflexivity.
Qed.

Lemma State_compare_spec_witness :
  State.compare (State.Mk QMatrix4x4.identity) (State.Mk QMatrix4x4.identity) = 0
  /\ State.compare nan_state (State.Mk QMatrix4x4.identity) = -1.
Proof.
  split.
  - apply (proj2 (proj2 (proj2
      (State_compare_spec (State.Mk QMatrix4x4.identity) (State.Mk QMatrix4x4.identity))))).
    + reflexivity.
    + reflexivity.
  - apply (proj1 (proj2
      (State_compare_spec nan_state (State.Mk QMatrix4x4.identity)))).
    discriminate.
Defined.

(** C8 as stated fails: a state with a NaN entry does not compare equal to
    itself, so [compare] is not reflexive. *)
Lemma State_compare_not_reflexive :
  State.compare nan_state nan_state = -1
  /\ ~ (forall s : State.t, State.compare s s = 0).
Proof.
  split; [reflexivity|]. intros H. specialize (H nan_state). discriminate H.
Qed.

(** ** The vertical flip *)

Lemma cond_Zopp_cancel (s : bool) (a : Z) :
  cond_Zopp s a + cond_Zopp (negb s) a = 0.
Proof. destruct s; cbn; lia. Qed.

(** The flip of a rectangle [QRectF(0, 0, w, h)] with a finite [h]: the
    edges after the three statements. *)
Lemma flipped_boundingRect (it : QSurfaceTexture.t) :
  is_finite (QSurfaceTexture.height it) = true ->
  let r := QSurfaceTexture.boundingRect it in
  let r' := QSurfaceTexture.flipped r in
  QRectF.top r' = QRectF.bottom r /\ QRectF.bottom r' = QRectF.top r
  /\ QRectF.left r' = QRectF.left r /\ QRectF.right r' = QRectF.right r.
Proof.
  unfold QSurfaceTexture.boundingRect, QSurfaceTexture.flipped.
  destruct (QSurfaceTexture.height it) as [[]|[]| |s m e]; try discriminate;
    intros _; cbn; try (repeat split; reflexivity).
  repeat split.
  unfold QRectF.bottom, qreal_add; cbn.
  rewrite cond_Zopp_cancel. reflexivity.
Qed.

(** ** Fresh names *)

Lemma fresh_ref_nonzero (j : JVMState) : fresh_ref j <> 0.
Proof.
  unfold fresh_ref. intros H.
  apply (is_fresh ({[0]} ∪ dom (jni_refs j))). rewrite H. set_solver.
Qed.

Lemma fresh_ref_unused (j : JVMState) : jni_refs j !! fresh_ref j = None.
Proof.
  apply not_elem_of_dom. unfold fresh_ref. intros H.
  apply (is_fresh ({[0]} ∪ dom (jni_refs j))). set_solver.
Qed.

Lemma fresh_object_unused (j : JVMState) : java_heap j !! fresh_object j = None.
Proof. apply not_elem_of_dom. unfold fresh_object. apply is_fresh. Qed.

Lemma gl_fresh_nonzero (g : GLState) : gl_fresh g <> 0.
Proof.
  unfold gl_fresh. intros H.
  apply (is_fresh ({[0]} ∪ dom (gl_textures g))). rewrite H. set_solver.
Qed.

Lemma gl_fresh_unused (g : GLState) : gl_textures g !! gl_fresh g = None.
Proof.
  apply not_elem_of_dom. unfold gl_fresh. intros H.
  apply (is_fresh ({[0]} ∪ dom (gl_textures g))). set_solver.
Qed.

(** ** Sixteen floats *)

Lemma flat16_length (m : Arr4 (Arr4 float32)) : length (flat16 m) = 16%nat.
Proof. reflexivity. Qed.

Lemma flat16_unflat16 (l : list float32) :
  length l = 16%nat -> flat16 (unflat16 l) = l.
Proof.
  intros H. do 16 (destruct l as [|? l]; [discriminate H|]).
  destruct l; [reflexivity|discriminate H].
Qed.

Lemma store_data_flat (src : list float32) (x : QMatrix4x4.t) :
  length src = 16%nat ->
  flat16 (QMatrix4x4.m (QMatrix4x4.store_data src x)) = src.
Proof.
  intros H. unfold QMatrix4x4.store_data, write_buf. cbn [QMatrix4x4.m].
  rewrite H, drop_ge by (rewrite flat16_length; lia).
  rewrite app_nil_r. apply flat16_unflat16, H.
Qed.

Lemma float_region_full (j : JVMState) (array : jobject) (elems : list float32) :
  float_array j array = Some elems -> length elems = 16%nat ->
  float_region j array 0 16 = Some elems.
Proof.
  intros Ha Hl. unfold float_region. rewrite Ha.
  rewrite decide_True by (rewrite Hl; lia).
  change (Z.to_nat 0) with 0%nat. change (Z.to_nat 16) with 16%nat.
  rewrite drop_0, take_ge by lia. reflexivity.
Qed.

(** ** What a Java call can change *)

Lemma java_call_refs obj name args g j :
  jni_refs (java_call obj name args g j).2 = jni_refs j.
Proof. java_cases; reflexivity. Qed.

Lemma java_call_active obj name args g j :
  gl_active (java_call obj name args g j).1 = gl_active g.
Proof. java_cases; reflexivity. Qed.

Lemma java_call_gl obj name args g j :
  String.eqb name "updateTexImage" = false ->
  (java_call obj name args g j).1 = g.
Proof. intros H. unfold java_call, java_invoke. rewrite H. java_cases; reflexivity. Qed.

Lemma float_array_insert_other (j : JVMState) (refs : gmap Z JRefEntry) (o : Z) (v : JObject) (r : jobject) :
  refs = jni_refs j ->
  (forall elems, java_heap j !! o <> Some (JFloatArray elems)) ->
  (forall elems, v <> JFloatArray elems) ->
  float_array (MkJVM refs (<[o := v]> (java_heap j))) r = float_array j r.
Proof.
  intros -> Ho Hv. unfold float_array, deref. cbn [jni_refs java_heap].
  destruct (jni_refs j !! r) as [e|]; [|reflexivity]. cbn.
  destruct (decide (o = ref_object e)) as [->|Hne].
  - rewrite lookup_insert_eq.
    destruct (java_heap j !! ref_object e) as [[]|] eqn:E, v; try reflexivity;
      try (exfalso; eapply Hv; reflexivity); exfalso; eapply Ho; reflexivity.
  - rewrite lookup_insert_ne by assumption. reflexivity.
Qed.

Lemma java_call_array16 obj name args g j r :
  is_array16 j r -> is_array16 (java_call obj name args g j).2 r.
Proof.
  intros (elems & Ha & Hl). unfold java_call.
  destruct (deref j obj) as [o|]; [|solve [exists elems; auto]].
  unfold java_invoke.
  destruct (java_heap j !! o) as [[? | texName listener transform queued | ? | ?]|] eqn:Ho;
    try solve [exists elems; auto].
  destruct (String.eqb name "updateTexImage").
  { exists elems. split; [|assumption]. cbn [snd].
    rewrite float_array_insert_other; [assumption|reflexivity|congruence|discriminate]. }
  destruct (String.eqb name "getTransformMatrix").
  { destruct args as [|[| |mtx] [|]]; try solve [exists elems; auto].
    destruct (deref j mtx) as [a|] eqn:Hm; [|solve [exists elems; auto]].
    destruct (java_heap j !! a) as [[old| | |]|] eqn:Haa; try solve [exists elems; auto].
    destruct (decide (length old = 16%nat)) as [Hold|Hold]; [|solve [exists elems; auto]].
    cbn [snd]. unfold is_array16, float_array, deref in *. cbn [jni_refs java_heap].
    destruct (jni_refs j !! r) as [re|]; [|discriminate Ha]. cbn -[flat16] in *.
    destruct (decide (a = ref_object re)) as [->|Hne].
    - rewrite lookup_insert_eq. eexists. split; [reflexivity|apply flat16_length].
    - rewrite lookup_insert_ne by assumption. exists elems; auto. }
  destruct (String.eqb name "setOnFrameAvailableListener"); [|solve [exists elems; auto]].
  destruct args as [|[| |l] [|]]; try solve [exists elems; auto].
  exists elems. split; [|assumption]. cbn [snd].
  rewrite float_array_insert_other; [assumption|reflexivity|congruence|discriminate].
Qed.

(** [updateTexImage] on a live SurfaceTexture latches the most recent
    queued frame. *)
Lemma updateTexImage_latches st g j o texName listener transform queued :
  deref j st = Some o ->
  java_heap j !! o = Some (JSurfaceTexture texName listener transform queued) ->
  java_heap (java_call st "updateTexImage" [] g j).2 !! o
  = Some (JSurfaceTexture texName listener (default transform (last queued)) [])
  /\ deref (java_call st "updateTexImage" [] g j).2 st = Some o.
Proof.
  intros Hd Ho. unfold java_call. rewrite Hd. unfold java_invoke. rewrite Ho.
  cbn. rewrite lookup_insert_eq. split; [reflexivity|exact Hd].
Qed.

(** [getTransformMatrix] on a live SurfaceTexture fills a sixteen-float
    array with the latched transform. *)
Lemma getTransformMatrix_fills st mtx g j o texName listener transform queued :
  deref j st = Some o ->
  java_heap j !! o = Some (JSurfaceTexture texName listener transform queued) ->
  is_array16 j mtx ->
  float_array (java_call st "getTransformMatrix" [JRef mtx] g j).2 mtx
  = Some (flat16 transform).
Proof.
  intros Hd Ho (elems & Ha & Hl). unfold java_call. rewrite Hd.
  unfold java_invoke. rewrite Ho. cbn [String.eqb Ascii.eqb Bool.eqb].
  unfold float_array in Ha.
  destruct (deref j mtx) as [a|] eqn:Hm; [|discriminate Ha]. cbn in Ha.
  destruct (java_heap j !! a) as [[old| | |]|] eqn:Haa; try discriminate Ha.
  injection Ha as ->. rewrite decide_True by assumption. cbn [snd].
  unfold float_array. unfold deref in *. cbn [jni_refs java_heap].
  destruct (jni_refs j !! mtx) as [e|]; [|discriminate Hm]. cbn in *.
  injection Hm as ->. rewrite lookup_insert_eq. reflexivity.
Qed.

(** ** The node: construction, frames, destruction *)

Lemma deref_insert_eq (refs : gmap Z JRefEntry) (heap : gmap Z JObject) (a : jobject) (e : JRefEntry) :
  deref (MkJVM (<[a := e]> refs) heap) a = Some (ref_object e).
Proof. unfold deref. cbn. rewrite lookup_insert_eq. reflexivity. Qed.

Lemma delete_ref_local (refs : gmap Z JRefEntry) (heap : gmap Z JObject)
  (a r : jobject) (o : Z) (e : JRefEntry) :
  r <> a ->
  delete_ref false a (MkJVM (<[r := e]> (<[a := MkRef false o]> refs)) heap)
  = MkJVM (delete a (<[r := e]> (<[a := MkRef false o]> refs))) heap.
Proof.
  intros H. unfold delete_ref. cbn.
  rewrite lookup_insert_ne by assumption. rewrite lookup_insert_eq. reflexivity.
Qed.

Lemma fresh_ref_after_insert (refs : gmap Z JRefEntry) (heap : gmap Z JObject)
  (a : jobject) (e : JRefEntry) :
  fresh_ref (MkJVM (<[a := e]> refs) heap) <> a.
Proof.
  intros E. pose proof (fresh_ref_unused (MkJVM (<[a := e]> refs) heap)) as H.
  rewrite E in H. cbn in H. rewrite lookup_insert_eq in H. discriminate H.
Qed.

(** The constructor, step by step: the local reference [a] to the new
    array [o], the global reference [r] made from it, [a] deleted. *)
Lemma ctor_run (surfaceTexture : QAndroidJniObject) (textureId : GLuint) (w : World) :
  let j := jvm w in
  let o := fresh_object j in
  let a := fresh_ref j in
  let refs1 := <[a := MkRef false o]> (jni_refs j) in
  let heap1 := <[o := JFloatArray (replicate 16 f32_zero)]> (java_heap j) in
  let r := fresh_ref (MkJVM refs1 heap1) in
  SurfaceTextureNode.ctor surfaceTexture textureId w
  = (SurfaceTextureNode.Mk
       (setFlag OwnsMaterial true (setFlag UsePreprocess true OwnedByParent))
       (Some (MkMaterial (setFlag Blending false 0) (State.Mk QMatrix4x4.identity)))
       surfaceTexture QSGGeometry_new r textureId,
     MkWorld (trace w ++ [E_NewFloatArray 16 a; E_NewGlobalRef a r; E_DeleteLocalRef a])
             (gl w)
             (MkJVM (delete a (<[r := MkRef true o]> refs1)) heap1)
             (qt w)).
Proof.
  open_world w. cbv zeta. unfold SurfaceTextureNode.ctor. run.
  change (Z.to_nat 16) with 16%nat.
  rewrite deref_insert_eq. run.
  rewrite delete_ref_local by apply fresh_ref_after_insert.
  trace_norm. reflexivity.
Qed.

(** [preprocess] with a material, step by step: [c1] and [c2] are the GL
    context and the Java side after the two Java calls. *)
Lemma preprocess_run (n : SurfaceTextureNode.t) (mat : QSGSimpleMaterial) (w : World) :
  SurfaceTextureNode.material n = Some mat ->
  let st := object (SurfaceTextureNode.m_surfaceTexture n) in
  let arr := SurfaceTextureNode.m_uSTMatrixArray n in
  let c1 := java_call st "updateTexImage" [] (gl w) (jvm w) in
  let c2 := java_call st "getTransformMatrix" [JRef arr] c1.1 c1.2 in
  SurfaceTextureNode.preprocess n w
  = (SurfaceTextureNode.set_material
       (Some (MkMaterial (mat_flags mat)
                (State.Mk (QMatrix4x4.store_data
                             (default [] (float_region c2.2 arr 0 16))
                             (State.uSTMatrix (state mat)))))) n,
     MkWorld (trace w ++ [E_callMethod st "updateTexImage" "()V" [];
                          E_callMethod st "getTransformMatrix" "([F)V" [JRef arr];
                          E_GetFloatArrayRegion arr 0 16;
                          E_glActiveTexture GL_TEXTURE0;
                          E_glBindTexture GL_TEXTURE_EXTERNAL_OES
                                          (SurfaceTextureNode.m_textureId n)])
             (gl_bind GL_TEXTURE_EXTERNAL_OES (SurfaceTextureNode.m_textureId n)
                      (MkGL (gl_textures c2.1) 0 (gl_bindings c2.1)))
             c2.2 (qt w)).
Proof.
  intros Hmat. open_world w. cbv zeta. unfold SurfaceTextureNode.preprocess.
  rewrite Hmat. run. rewrite decide_True by reflexivity. rewrite Z.sub_diag.
  trace_norm. reflexivity.
Qed.

Lemma preprocess_no_material (n : SurfaceTextureNode.t) (w : World) :
  SurfaceTextureNode.material n = None -> SurfaceTextureNode.preprocess n w = (n, w).
Proof. intros H. unfold SurfaceTextureNode.preprocess. rewrite H. reflexivity. Qed.

Lemma gl_bound_bind (target : GLenum) (texture : GLuint) (g : GLState) :
  gl_bound target (gl_bind target texture g) = texture.
Proof. unfold gl_bound, gl_bind. cbn. rewrite lookup_insert_eq. reflexivity. Qed.

(** C1: a [preprocess] on a node with a material issues, in this order,
    [updateTexImage] on the SurfaceTexture object, [getTransformMatrix] with
    the array of the node, the read of the region 0..16 of that array,
    [glActiveTexture(GL_TEXTURE0)] and the bind of the texture id of the
    node to the external target.  When the array is the sixteen-float array
    of the node, all its sixteen floats are in [uSTMatrix] afterwards; when
    the SurfaceTexture object is live too, they are the transform of the
    most recent frame.  Unit 0 ends active with the texture bound, and the
    node changes in its material state only. *)
Theorem preprocess_sequence (n : SurfaceTextureNode.t) (mat : QSGSimpleMaterial) (w : World) :
  SurfaceTextureNode.material n = Some mat ->
  let st := object (SurfaceTextureNode.m_surfaceTexture n) in
  let arr := SurfaceTextureNode.m_uSTMatrixArray n in
  let n' := (SurfaceTextureNode.preprocess n w).1 in
  let w' := (SurfaceTextureNode.preprocess n w).2 in
  trace w' = trace w ++ [E_callMethod st "updateTexImage" "()V" [];
                         E_callMethod st "getTransformMatrix" "([F)V" [JRef arr];
                         E_GetFloatArrayRegion arr 0 16;
                         E_glActiveTexture GL_TEXTURE0;
                         E_glBindTexture GL_TEXTURE_EXTERNAL_OES
                                         (SurfaceTextureNode.m_textureId n)]
  /\ (exists uSTMatrix,
        n' = SurfaceTextureNode.set_material
               (Some (MkMaterial (mat_flags mat) (State.Mk uSTMatrix))) n
        /\ (is_array16 (jvm w) arr ->
            float_array (jvm w') arr = Some (flat16 (QMatrix4x4.m uSTMatrix)))
        /\ (forall o texName listener transform queued,
              is_array16 (jvm w) arr ->
              deref (jvm w) st = Some o ->
              java_heap (jvm w) !! o
                = Some (JSurfaceTexture texName listener transform queued) ->
              flat16 (QMatrix4x4.m uSTMatrix)
                = flat16 (default transform (last queued))))
  /\ gl_active (gl w') = 0
  /\ gl_bound GL_TEXTURE_EXTERNAL_OES (gl w') = SurfaceTextureNode.m_textureId n.
Proof.
  intros Hmat st arr n' w'. subst n' w'.
  rewrite (preprocess_run n mat w Hmat). cbn zeta. fold st arr.
  set (c1 := java_call st "updateTexImage" [] (gl w) (jvm w)).
  set (c2 := java_call st "getTransformMatrix" [JRef arr] c1.1 c1.2).
  cbn [fst snd trace gl jvm].
  assert (Hcopy : is_array16 (jvm w) arr ->
            float_array c2.2 arr
            = Some (flat16 (QMatrix4x4.m (QMatrix4x4.store_data
                       (default [] (float_region c2.2 arr 0 16))
                       (State.uSTMatrix (state mat)))))).
  { intros H16.
    destruct (java_call_array16 st "getTransformMatrix" [JRef arr] c1.1 c1.2 arr
                (java_call_array16 st "updateTexImage" [] (gl w) (jvm w) arr H16))
      as (elems & Helems & Hlen).
    fold c1 c2 in Helems.
    rewrite (float_region_full _ _ _ Helems Hlen). cbn [default].
    rewrite store_data_flat by assumption. exact Helems. }
  split; [reflexivity|]. split; [|split].
  - eexists. split; [reflexivity|]. split; [exact Hcopy|].
    intros o texName listener transform queued H16 Hd Ho.
    destruct (updateTexImage_latches st (gl w) (jvm w) o _ _ _ _ Hd Ho) as [Ho1 Hd1].
    fold c1 in Ho1, Hd1.
    pose proof (getTransformMatrix_fills st arr c1.1 c1.2 o _ _ _ _ Hd1 Ho1
                  (java_call_array16 st "updateTexImage" [] (gl w) (jvm w) arr H16)) as Hf.
    fold c2 in Hf. rewrite (Hcopy H16) in Hf. exact (inj Some _ _ Hf).
  - reflexivity.
  - apply gl_bound_bind.
Qed.

(** C6: without a material [preprocess] returns at once: the node and the
    whole world, trace included, are what they were. *)
Theorem preprocess_without_material (n : SurfaceTextureNode.t) (w : World) :
  SurfaceTextureNode.material n = None ->
  SurfaceTextureNode.preprocess n w = (n, w).
Proof. apply preprocess_no_material. Qed.

Lemma allocated_app (tr l : list Event) :
  float_arrays_allocated (tr ++ l) = float_arrays_allocated tr ++ float_arrays_allocated l.
Proof. apply omap_app. Qed.

(** What every [preprocess] keeps: the array reference of the node, the
    allocations, the reference table, and the array behind the reference. *)
Lemma preprocess_keeps (n : SurfaceTextureNode.t) (w : World) :
  let arr := SurfaceTextureNode.m_uSTMatrixArray n in
  let n' := (SurfaceTextureNode.preprocess n w).1 in
  let w' := (SurfaceTextureNode.preprocess n w).2 in
  SurfaceTextureNode.m_uSTMatrixArray n' = arr
  /\ float_arrays_allocated (trace w') = float_arrays_allocated (trace w)
  /\ jni_refs (jvm w') = jni_refs (jvm w)
  /\ (is_array16 (jvm w) arr -> is_array16 (jvm w') arr).
Proof.
  cbn zeta. destruct (SurfaceTextureNode.material n) as [mat|] eqn:Hmat.
  - rewrite (preprocess_run n mat w Hmat). cbn [fst snd trace jvm].
    repeat split.
    + rewrite allocated_app. cbn. apply app_nil_r.
    + rewrite !java_call_refs. reflexivity.
    + intros H. do 2 apply java_call_array16. exact H.
  - rewrite (preprocess_no_material n w Hmat). cbn [fst snd]. tauto.
Qed.

Lemma queue_frame_keeps (o : Z) (mtx : Arr4 (Arr4 float32)) (j : JVMState) (r : jobject) :
  jni_refs (queue_frame o mtx j) = jni_refs j
  /\ (is_array16 j r -> is_array16 (queue_frame o mtx j) r).
Proof.
  unfold queue_frame.
  destruct (java_heap j !! o) as [[? | texName listener transform queued | ? | ?]|] eqn:Ho;
    try tauto.
  split; [reflexivity|]. intros (elems & Ha & Hl). exists elems. split; [|assumption].
  rewrite float_array_insert_other; [assumption|reflexivity|congruence|discriminate].
Qed.

Lemma queue_batch_keeps (o : Z) (batch : list (Arr4 (Arr4 float32))) (j : JVMState) (r : jobject) :
  jni_refs (foldl (fun j mtx => queue_frame o mtx j) j batch) = jni_refs j
  /\ (is_array16 j r -> is_array16 (foldl (fun j mtx => queue_frame o mtx j) j batch) r).
Proof.
  revert j. induction batch as [|mtx batch IH]; intros j; cbn [foldl]; [tauto|].
  destruct (IH (queue_frame o mtx j)) as [IH1 IH2].
  destruct (queue_frame_keeps o mtx j r) as [Q1 Q2].
  split; [rewrite IH1; exact Q1|auto].
Qed.

(** Over any number of frames the renderer keeps what one [preprocess]
    keeps. *)
Lemma render_keeps (o : Z) (batches : list (list (Arr4 (Arr4 float32))))
  (n : SurfaceTextureNode.t) (w : World) :
  let arr := SurfaceTextureNode.m_uSTMatrixArray n in
  let n' := (render o batches n w).1 in
  let w' := (render o batches n w).2 in
  SurfaceTextureNode.m_uSTMatrixArray n' = arr
  /\ float_arrays_allocated (trace w') = float_arrays_allocated (trace w)
  /\ jni_refs (jvm w') = jni_refs (jvm w)
  /\ (is_array16 (jvm w) arr -> is_array16 (jvm w') arr).
Proof.
  cbn zeta. revert n w. induction batches as [|batch rest IH]; intros n w.
  - cbn. tauto.
  - open_world w. cbn [render]. run.
    match goal with
    | |- context [SurfaceTextureNode.preprocess n ?w1] =>
        pose proof (preprocess_keeps n w1) as K;
        destruct (SurfaceTextureNode.preprocess n w1) as [n2 w2]
    end.
    cbn [fst snd trace jvm] in K. destruct K as (K1 & K2 & K3 & K4).
    destruct (queue_batch_keeps o batch (MkJVM refs heap)
                (SurfaceTextureNode.m_uSTMatrixArray n)) as [Q1 Q2].
    destruct (IH n2 w2) as (I1 & I2 & I3 & I4).
    rewrite K1 in I1, I4.
    split; [exact I1|]. split; [exact (eq_trans I2 K2)|].
    split; [exact (eq_trans I3 (eq_trans K3 Q1))|]. intros H. apply I4, K4, Q2, H.
Qed.

(** C2: the constructor allocates exactly one float array, of sixteen
    elements, and the node keeps a global reference to it while the local
    one is deleted; a [preprocess], and any run of the renderer, allocates
    nothing, leaves the reference of the node and the reference table as
    they are and hands that reference to [getTransformMatrix] and to the
    region read; the destructor deletes the global reference. *)
Theorem matrix_array_lifecycle :
  (forall (surfaceTexture : QAndroidJniObject) (textureId : GLuint) (w : World),
     let n := (SurfaceTextureNode.ctor surfaceTexture textureId w).1 in
     let w' := (SurfaceTextureNode.ctor surfaceTexture textureId w).2 in
     let arr := SurfaceTextureNode.m_uSTMatrixArray n in
     exists a o,
       trace w' = trace w ++ [E_NewFloatArray 16 a; E_NewGlobalRef a arr; E_DeleteLocalRef a]
       /\ float_arrays_allocated (trace w') = float_arrays_allocated (trace w) ++ [(16, a)]
       /\ java_heap (jvm w) !! o = None
       /\ jni_refs (jvm w') !! arr = Some (MkRef true o)
       /\ jni_refs (jvm w') !! a = None
       /\ float_array (jvm w') arr = Some (replicate 16 f32_zero)
       /\ arr <> 0)
  /\ (forall (n : SurfaceTextureNode.t) (w : World),
     let arr := SurfaceTextureNode.m_uSTMatrixArray n in
     let st := object (SurfaceTextureNode.m_surfaceTexture n) in
     let n' := (SurfaceTextureNode.preprocess n w).1 in
     let w' := (SurfaceTextureNode.preprocess n w).2 in
     SurfaceTextureNode.m_uSTMatrixArray n' = arr
     /\ float_arrays_allocated (trace w') = float_arrays_allocated (trace w)
     /\ jni_refs (jvm w') = jni_refs (jvm w)
     /\ (is_array16 (jvm w) arr -> is_array16 (jvm w') arr)
     /\ (SurfaceTextureNode.material n <> None ->
         exists pre post,
           trace w' = trace w ++ pre
                        ++ [E_callMethod st "getTransformMatrix" "([F)V" [JRef arr];
                            E_GetFloatArrayRegion arr 0 16] ++ post))
  /\ (forall (o : Z) (batches : list (list (Arr4 (Arr4 float32))))
            (n : SurfaceTextureNode.t) (w : World),
     let arr := SurfaceTextureNode.m_uSTMatrixArray n in
     let n' := (render o batches n w).1 in
     let w' := (render o batches n w).2 in
     SurfaceTextureNode.m_uSTMatrixArray n' = arr
     /\ float_arrays_allocated (trace w') = float_arrays_allocated (trace w)
     /\ jni_refs (jvm w') = jni_refs (jvm w)
     /\ (is_array16 (jvm w) arr -> is_array16 (jvm w') arr))
  /\ (forall (n : SurfaceTextureNode.t) (w : World),
     let arr := SurfaceTextureNode.m_uSTMatrixArray n in
     let w' := (SurfaceTextureNode.dtor n w).2 in
     trace w' = trace w ++ [E_DeleteGlobalRef arr]
     /\ (forall o, jni_refs (jvm w) !! arr = Some (MkRef true o) ->
         jni_refs (jvm w') = delete arr (jni_refs (jvm w)))).
Proof.
  split; [|split; [|split]].
  - intros surfaceTexture textureId w. cbn zeta. rewrite ctor_run. cbn zeta.
    cbn [fst snd trace jvm SurfaceTextureNode.m_uSTMatrixArray jni_refs java_heap].
    set (j := jvm w). set (o := fresh_object j). set (a := fresh_ref j).
    set (refs1 := <[a := MkRef false o]> (jni_refs j)).
    set (heap1 := <[o := JFloatArray (replicate 16 f32_zero)]> (java_heap j)).
    set (r := fresh_ref (MkJVM refs1 heap1)).
    assert (Hra : r <> a) by apply fresh_ref_after_insert.
    assert (Hr : delete a (<[r := MkRef true o]> refs1) !! r = Some (MkRef true o)).
    { rewrite lookup_delete_ne by congruence. apply lookup_insert_eq. }
    exists a, o. repeat split.
    + rewrite allocated_app. reflexivity.
    + apply fresh_object_unused.
    + exact Hr.
    + apply lookup_delete_eq.
    + unfold float_array, deref. cbn [jni_refs java_heap]. rewrite Hr. cbn.
      unfold heap1. rewrite lookup_insert_eq. reflexivity.
    + apply fresh_ref_nonzero.
  - intros n w. cbn zeta.
    destruct (preprocess_keeps n w) as (K1 & K2 & K3 & K4).
    repeat split; try assumption.
    intros Hmat. destruct (SurfaceTextureNode.material n) as [mat|] eqn:E; [|congruence].
    rewrite (preprocess_run n mat w E). cbn [snd trace].
    eexists [_], [_; _]. reflexivity.
  - intros o batches n w. apply render_keeps.
  - intros n w. open_world w. cbn zeta. unfold SurfaceTextureNode.dtor. run.
    split; [reflexivity|].
    intros o Ho. unfold delete_ref. cbn [jni_refs]. rewrite Ho. reflexivity.
Qed.

(** ** The JNI callback *)

(** C5: the callback does one thing: it hands the slot "update" of the
    item at [ptr] to [QMetaObject::invokeMethod] with
    [Qt::QueuedConnection]; the call is posted to the event loop, no slot
    has run when the callback returns, and GL and the Java side are
    untouched. *)
Theorem frameAvailable_queues_update (env thiz ptr : Z) (surfaceTexture : jobject) (w : World) :
  Java_com_kdab_android_SurfaceTextureListener_frameAvailable env thiz ptr surfaceTexture w
  = (tt, MkWorld (trace w ++ [E_invokeMethod ptr "update" QueuedConnection])
                 (gl w) (jvm w)
                 (MkQt (qt_posted (qt w) ++ [(ptr, "update"%string)])
                       (qt_invoked (qt w)))).
Proof. reflexivity. Qed.

(** ** The item: destruction *)

Lemma item_dtor_run (it : QSurfaceTexture.t) (w : World) :
  QSurfaceTexture.m_textureId it <> 0 ->
  QSurfaceTexture.dtor it w
  = (tt, MkWorld (trace w ++ [E_glBindTexture GL_TEXTURE_EXTERNAL_OES 0;
                              E_glDeleteTextures 1 [QSurfaceTexture.m_textureId it]])
                 (gl_delete (gl_bind GL_TEXTURE_EXTERNAL_OES 0 (gl w))
                            (QSurfaceTexture.m_textureId it))
                 (jvm w) (qt w)).
Proof.
  intros H. open_world w. unfold QSurfaceTexture.dtor.
  rewrite decide_True by assumption.
  run. trace_norm. reflexivity.
Qed.

Lemma gl_delete_gone (g : GLState) (name : GLuint) :
  name <> 0 ->
  gl_textures (gl_delete g name) !! name = None
  /\ forall unit target, gl_bindings (gl_delete g name) !! (unit, target) <> Some name.
Proof.
  intros H. unfold gl_delete. rewrite decide_False by assumption.
  cbn [gl_textures gl_bindings]. split; [apply lookup_delete_eq|].
  intros unit target. rewrite lookup_fmap.
  destruct (gl_bindings g !! (unit, target)) as [b|]; cbn; [|discriminate].
  destruct (decide (b = name)); congruence.
Qed.

(** C7: the destructor of an item that owns a texture unbinds the external
    target and deletes the texture: afterwards the name is not in use and no
    unit has it bound.  The destructor of a node deletes the global
    reference to its array: afterwards the reference is gone, and the array
    is out of reach of JNI when nothing else referred to it. *)
Theorem destructors_release (w : World) :
  (forall it : QSurfaceTexture.t,
     QSurfaceTexture.m_textureId it <> 0 ->
     let tid := QSurfaceTexture.m_textureId it in
     let w' := (QSurfaceTexture.dtor it w).2 in
     trace w' = trace w ++ [E_glBindTexture GL_TEXTURE_EXTERNAL_OES 0;
                            E_glDeleteTextures 1 [tid]]
     /\ gl_textures (gl w') !! tid = None
     /\ (forall unit target, gl_bindings (gl w') !! (unit, target) <> Some tid)
     /\ gl_bound GL_TEXTURE_EXTERNAL_OES (gl w') = 0)
  /\ (forall (n : SurfaceTextureNode.t) (o : Z),
     let arr := SurfaceTextureNode.m_uSTMatrixArray n in
     jni_refs (jvm w) !! arr = Some (MkRef true o) ->
     let w' := (SurfaceTextureNode.dtor n w).2 in
     trace w' = trace w ++ [E_DeleteGlobalRef arr]
     /\ jni_refs (jvm w') !! arr = None
     /\ ((forall r, r <> arr -> deref (jvm w) r <> Some o) ->
         forall r, deref (jvm w') r <> Some o)).
Proof.
  split.
  - intros it Hid. cbn zeta. rewrite (item_dtor_run it w Hid). cbn [snd trace gl].
    destruct (gl_delete_gone (gl_bind GL_TEXTURE_EXTERNAL_OES 0 (gl w)) _ Hid)
      as [Hgone Hunbound].
    repeat split; try assumption.
    unfold gl_bound, gl_delete, gl_bind. rewrite decide_False by assumption.
    cbn [gl_bindings gl_active]. rewrite lookup_fmap, lookup_insert_eq. cbn.
    rewrite decide_False by congruence. reflexivity.
  - intros n o arr Ho. open_world w. cbn zeta. unfold SurfaceTextureNode.dtor. run.
    cbn [jvm jni_refs] in Ho.
    unfold delete_ref. cbn [jni_refs]. fold arr. rewrite Ho.
    cbn [ref_global Bool.eqb jni_refs].
    repeat split.
    + apply lookup_delete_eq.
    + intros Hother r. unfold deref. cbn [jni_refs].
      destruct (decide (r = arr)) as [->|Hne].
      * rewrite lookup_delete_eq. discriminate.
      * rewrite lookup_delete_ne by congruence. apply Hother, Hne.
Qed.

(** C10: the destructor of an item whose texture id is 0 does nothing at
    all, so it makes no GL call; an item that was constructed and never
    painted is such an item. *)
Theorem dtor_without_texture (w : World) :
  (forall it : QSurfaceTexture.t,
     QSurfaceTexture.m_textureId it = 0 ->
     QSurfaceTexture.dtor it w = (tt, w)
     /\ gl_calls (trace (QSurfaceTexture.dtor it w).2) = gl_calls (trace w))
  /\ (forall addr parent : Z,
     QSurfaceTexture.m_textureId (QSurfaceTexture.ctor addr parent) = 0
     /\ QSurfaceTexture.dtor (QSurfaceTexture.ctor addr parent) w = (tt, w)).
Proof.
  split.
  - intros it H. unfold QSurfaceTexture.dtor. rewrite decide_False by congruence.
    split; reflexivity.
  - intros addr parent. split; reflexivity.
Qed.

(** ** The item: the first paint *)

Lemma gl_bind_known (target : GLenum) (t : GLuint) (textures : gmap Z (gmap Z TexParam))
  (p : gmap Z TexParam) (active : Z) (bindings : gmap (Z * Z) Z) :
  gl_bind target t (MkGL (<[t := p]> textures) active bindings)
  = MkGL (<[t := p]> textures) active (<[(active, target) := t]> bindings).
Proof. unfold gl_bind. cbn. rewrite lookup_insert_eq. reflexivity. Qed.

Lemma gl_set_param_bound (target pname : GLenum) (v : TexParam) (t : GLuint)
  (textures : gmap Z (gmap Z TexParam)) (p : gmap Z TexParam) (active : Z)
  (bindings : gmap (Z * Z) Z) :
  gl_set_param target pname v
    (MkGL (<[t := p]> textures) active (<[(active, target) := t]> bindings))
  = MkGL (<[t := <[pname := v]> p]> textures) active
         (<[(active, target) := t]> bindings).
Proof.
  unfold gl_set_param, gl_bound. cbn. rewrite lookup_insert_eq. cbn.
  rewrite lookup_insert_eq. cbn. rewrite insert_insert_eq. reflexivity.
Qed.

Lemma fresh_object_after_insert (refs : gmap Z JRefEntry) (heap : gmap Z JObject)
  (o : Z) (v : JObject) :
  fresh_object (MkJVM refs (<[o := v]> heap)) <> o.
Proof.
  intros E. pose proof (fresh_object_unused (MkJVM refs (<[o := v]> heap))) as H.
  rewrite E in H. cbn in H. rewrite lookup_insert_eq in H. discriminate H.
Qed.

(** [setOnFrameAvailableListener] on the two objects that were just made. *)
Lemma set_listener_run (g : GLState) (refs : gmap Z JRefEntry) (heap : gmap Z JObject)
  (r1 r2 o1 o2 texName ptr : Z) :
  r2 <> r1 -> o2 <> o1 ->
  let st := JSurfaceTexture texName None identity_transform [] in
  let j := MkJVM (<[r2 := MkRef true o2]> (<[r1 := MkRef true o1]> refs))
                 (<[o2 := JSurfaceTextureListener ptr]> (<[o1 := st]> heap)) in
  java_call r1 "setOnFrameAvailableListener" [JRef r2] g j
  = (g, MkJVM (jni_refs j)
              (<[o1 := JSurfaceTexture texName (Some o2) identity_transform []]>
                 (java_heap j))).
Proof.
  intros Hr Ho. cbv zeta. unfold java_call, deref. cbn [jni_refs java_heap].
  rewrite lookup_insert_ne by assumption. rewrite lookup_insert_eq.
  cbn [fmap option_fmap option_map ref_object]. unfold java_invoke, deref.
  cbn [jni_refs java_heap].
  rewrite lookup_insert_ne by assumption. rewrite lookup_insert_eq.
  cbn [String.eqb Ascii.eqb Bool.eqb]. rewrite lookup_insert_eq. reflexivity.
Qed.

(** The first-paint branch, step by step: the texture [tid] with its
    parameters and its binding, the SurfaceTexture [o1] behind [r1], the
    listener [o2] behind [r2], and the node built in that world. *)
Lemma create_run (it : QSurfaceTexture.t) (w : World) :
  let tid := gl_fresh (gl w) in
  let g := MkGL (<[tid := first_paint_params]> (gl_textures (gl w)))
                (gl_active (gl w))
                (<[(gl_active (gl w), GL_TEXTURE_EXTERNAL_OES) := tid]>
                   (gl_bindings (gl w))) in
  let o1 := fresh_object (jvm w) in
  let r1 := fresh_ref (jvm w) in
  let j1 := MkJVM (<[r1 := MkRef true o1]> (jni_refs (jvm w)))
                  (<[o1 := JSurfaceTexture tid None identity_transform []]>
                     (java_heap (jvm w))) in
  let o2 := fresh_object j1 in
  let r2 := fresh_ref j1 in
  let j2 := MkJVM (<[r2 := MkRef true o2]> (jni_refs j1))
                  (<[o1 := JSurfaceTexture tid (Some o2) identity_transform []]>
                     (<[o2 := JSurfaceTextureListener (QSurfaceTexture.this it)]>
                        (java_heap j1))) in
  let w3 := MkWorld
    (trace w ++
       [E_glGenTextures 1 [tid];
        E_glBindTexture GL_TEXTURE_EXTERNAL_OES tid;
        E_glTexParameterf GL_TEXTURE_EXTERNAL_OES GL_TEXTURE_MIN_FILTER (GLfloat_of GL_NEAREST);
        E_glTexParameterf GL_TEXTURE_EXTERNAL_OES GL_TEXTURE_MAG_FILTER (GLfloat_of GL_LINEAR);
        E_glTexParameteri GL_TEXTURE_EXTERNAL_OES GL_TEXTURE_WRAP_S GL_CLAMP_TO_EDGE;
        E_glTexParameteri GL_TEXTURE_EXTERNAL_OES GL_TEXTURE_WRAP_T GL_CLAMP_TO_EDGE;
        E_NewObject "android/graphics/SurfaceTexture" "(I)V" [JInt tid] r1;
        E_NewObject "com/kdab/android/SurfaceTextureListener" "(J)V"
                    [JLong (QSurfaceTexture.this it)] r2;
        E_callMethod r1 "setOnFrameAvailableListener"
          "(Landroid/graphics/SurfaceTexture$OnFrameAvailableListener;)V" [JRef r2]])
    g j2 (qt w) in
  QSurfaceTexture.create it w
  = ((QSurfaceTexture.Mk (QSurfaceTexture.this it) (QSurfaceTexture.flags it)
        (QSurfaceTexture.width it) (QSurfaceTexture.height it) tid (MkJniObject r1),
      (SurfaceTextureNode.ctor (MkJniObject r1) tid w3).1),
     (SurfaceTextureNode.ctor (MkJniObject r1) tid w3).2).
Proof.
  open_world w. cbv zeta. unfold QSurfaceTexture.create. run.
  change (Z.to_nat 1) with 1%nat. cbn [gl_gen fst snd hd]. run.
  cbn [object].
  change (java_new "android/graphics/SurfaceTexture" [JInt ?t])
    with (JSurfaceTexture t None identity_transform []).
  change (java_new "com/kdab/android/SurfaceTextureListener" [JLong ?p])
    with (JSurfaceTextureListener p).
  rewrite gl_bind_known. rewrite !gl_set_param_bound.
  fold first_paint_params.
  rewrite set_listener_run
    by (apply fresh_ref_after_insert || apply fresh_object_after_insert).
  cbn [fst snd jni_refs java_heap]. trace_norm.
  match goal with
  | |- context [SurfaceTextureNode.ctor ?a ?b ?c] =>
      destruct (SurfaceTextureNode.ctor a b c) as [node w4]
  end.
  reflexivity.
Qed.

Lemma fresh_ref_not_used (j : JVMState) (r : jobject) :
  is_Some (jni_refs j !! r) -> fresh_ref j <> r.
Proof.
  intros [e He] E. pose proof (fresh_ref_unused j) as H. rewrite E in H. congruence.
Qed.

Lemma fresh_object_not_used (j : JVMState) (o : Z) :
  is_Some (java_heap j !! o) -> fresh_object j <> o.
Proof.
  intros [e He] E. pose proof (fresh_object_unused j) as H. rewrite E in H. congruence.
Qed.

Lemma updatePaintNode_node_run (it : QSurfaceTexture.t) (node : SurfaceTextureNode.t)
  (w : World) :
  let rect := QSurfaceTexture.flipped (QSurfaceTexture.boundingRect it) in
  QSurfaceTexture.updatePaintNode it (Some node) w
  = ((it, SurfaceTextureNode.set_geometry
            (rect_geometry rect QSurfaceTexture.unit_square) node),
     MkWorld (trace w ++ [E_updateTexturedRectGeometry rect QSurfaceTexture.unit_square;
                          E_markDirty (Z.lor DirtyGeometry DirtyMaterial)])
             (gl w) (jvm w) (qt w)).
Proof.
  open_world w. cbv zeta. unfold QSurfaceTexture.updatePaintNode. run.
  trace_norm. reflexivity.
Qed.

Lemma updatePaintNode_null_run (it : QSurfaceTexture.t) (w : World) :
  let c := QSurfaceTexture.create it w in
  let rect := QSurfaceTexture.flipped (QSurfaceTexture.boundingRect c.1.1) in
  QSurfaceTexture.updatePaintNode it None w
  = ((c.1.1, SurfaceTextureNode.set_geometry
               (rect_geometry rect QSurfaceTexture.unit_square) c.1.2),
     MkWorld (trace c.2 ++ [E_updateTexturedRectGeometry rect QSurfaceTexture.unit_square;
                            E_markDirty (Z.lor DirtyGeometry DirtyMaterial)])
             (gl c.2) (jvm c.2) (qt c.2)).
Proof.
  cbv zeta. unfold QSurfaceTexture.updatePaintNode. run.
  destruct (QSurfaceTexture.create it w) as [[it' node] w']. open_world w'.
  run. trace_norm. reflexivity.
Qed.

(** The first paint, step by step.  [tid] is the texture, [o1] behind [r1]
    the SurfaceTexture, [o2] behind [r2] the listener, [o3] the float array,
    behind the local reference [a] first and the global [r] then. *)
Lemma first_paint_run (it : QSurfaceTexture.t) (w : World) :
  let tid := gl_fresh (gl w) in
  let g := MkGL (<[tid := first_paint_params]> (gl_textures (gl w)))
                (gl_active (gl w))
                (<[(gl_active (gl w), GL_TEXTURE_EXTERNAL_OES) := tid]>
                   (gl_bindings (gl w))) in
  let o1 := fresh_object (jvm w) in
  let r1 := fresh_ref (jvm w) in
  let j1 := MkJVM (<[r1 := MkRef true o1]> (jni_refs (jvm w)))
                  (<[o1 := JSurfaceTexture tid None identity_transform []]>
                     (java_heap (jvm w))) in
  let o2 := fresh_object j1 in
  let r2 := fresh_ref j1 in
  let j2 := MkJVM (<[r2 := MkRef true o2]> (jni_refs j1))
                  (<[o1 := JSurfaceTexture tid (Some o2) identity_transform []]>
                     (<[o2 := JSurfaceTextureListener (QSurfaceTexture.this it)]>
                        (java_heap j1))) in
  let o3 := fresh_object j2 in
  let a := fresh_ref j2 in
  let refs3 := <[a := MkRef false o3]> (jni_refs j2) in
  let heap3 := <[o3 := JFloatArray (replicate 16 f32_zero)]> (java_heap j2) in
  let r := fresh_ref (MkJVM refs3 heap3) in
  let it' := QSurfaceTexture.Mk (QSurfaceTexture.this it) (QSurfaceTexture.flags it)
               (QSurfaceTexture.width it) (QSurfaceTexture.height it) tid
               (MkJniObject r1) in
  let rect := QSurfaceTexture.flipped (QSurfaceTexture.boundingRect it) in
  QSurfaceTexture.updatePaintNode it None w
  = ((it',
      SurfaceTextureNode.Mk
        (setFlag OwnsMaterial true (setFlag UsePreprocess true OwnedByParent))
        (Some (MkMaterial (setFlag Blending false 0) (State.Mk QMatrix4x4.identity)))
        (MkJniObject r1) (rect_geometry rect QSurfaceTexture.unit_square) r tid),
     MkWorld
       (trace w ++
          [E_glGenTextures 1 [tid];
           E_glBindTexture GL_TEXTURE_EXTERNAL_OES tid;
           E_glTexParameterf GL_TEXTURE_EXTERNAL_OES GL_TEXTURE_MIN_FILTER (GLfloat_of GL_NEAREST);
           E_glTexParameterf GL_TEXTURE_EXTERNAL_OES GL_TEXTURE_MAG_FILTER (GLfloat_of GL_LINEAR);
           E_glTexParameteri GL_TEXTURE_EXTERNAL_OES GL_TEXTURE_WRAP_S GL_CLAMP_TO_EDGE;
           E_glTexParameteri GL_TEXTURE_EXTERNAL_OES GL_TEXTURE_WRAP_T GL_CLAMP_TO_EDGE;
           E_NewObject "android/graphics/SurfaceTexture" "(I)V" [JInt tid] r1;
           E_NewObject "com/kdab/android/SurfaceTextureListener" "(J)V"
                       [JLong (QSurfaceTexture.this it)] r2;
           E_callMethod r1 "setOnFrameAvailableListener"
             "(Landroid/graphics/SurfaceTexture$OnFrameAvailableListener;)V" [JRef r2];
           E_NewFloatArray 16 a; E_NewGlobalRef a r; E_DeleteLocalRef a;
           E_updateTexturedRectGeometry rect QSurfaceTexture.unit_square;
           E_markDirty (Z.lor DirtyGeometry DirtyMaterial)])
       g (MkJVM (delete a (<[r := MkRef true o3]> refs3)) heap3) (qt w)).
Proof.
  cbv zeta. rewrite updatePaintNode_null_run. cbv zeta.
  rewrite create_run. cbv zeta. rewrite ctor_run. cbv zeta.
  cbn [fst snd trace gl jvm qt jni_refs java_heap SurfaceTextureNode.set_geometry
       SurfaceTextureNode.flags SurfaceTextureNode.material
       SurfaceTextureNode.m_surfaceTexture SurfaceTextureNode.m_uSTMatrixArray
       SurfaceTextureNode.m_textureId QSurfaceTexture.boundingRect
       QSurfaceTexture.width QSurfaceTexture.height].
  trace_norm. reflexivity.
Qed.

Lemma creation_calls_app (tr l : list Event) :
  creation_calls (tr ++ l) = creation_calls tr ++ creation_calls l.
Proof. apply List.filter_app. Qed.

(** C3: with a node, [updatePaintNode] leaves the item (its texture id and
    its SurfaceTexture with it), the GL context and the Java side as they
    are, creates nothing, and changes the node in its geometry only, with the
    renderer told that geometry and material are dirty.  Without a node it
    generates one texture name, constructs the Java SurfaceTexture for that
    texture and the listener for this item, in objects that did not exist
    before, installs the listener, and stores the texture id and the
    SurfaceTexture in the item and in the new node. *)
Theorem updatePaintNode_creates_on_null_only (it : QSurfaceTexture.t) (w : World) :
  (forall node : SurfaceTextureNode.t,
     let rect := QSurfaceTexture.flipped (QSurfaceTexture.boundingRect it) in
     QSurfaceTexture.updatePaintNode it (Some node) w
     = ((it, SurfaceTextureNode.set_geometry
               (rect_geometry rect QSurfaceTexture.unit_square) node),
        MkWorld (trace w ++ [E_updateTexturedRectGeometry rect QSurfaceTexture.unit_square;
                             E_markDirty (Z.lor DirtyGeometry DirtyMaterial)])
                (gl w) (jvm w) (qt w)))
  /\ (forall node : SurfaceTextureNode.t,
     creation_calls (trace (QSurfaceTexture.updatePaintNode it (Some node) w).2)
     = creation_calls (trace w))
  /\ (let res := QSurfaceTexture.updatePaintNode it None w in
      exists tid st lis o ol,
        creation_calls (trace res.2)
        = creation_calls (trace w) ++
            [E_glGenTextures 1 [tid];
             E_NewObject "android/graphics/SurfaceTexture" "(I)V" [JInt tid] st;
             E_NewObject "com/kdab/android/SurfaceTextureListener" "(J)V"
                         [JLong (QSurfaceTexture.this it)] lis]
        /\ In (E_callMethod st "setOnFrameAvailableListener"
                 "(Landroid/graphics/SurfaceTexture$OnFrameAvailableListener;)V"
                 [JRef lis]) (trace res.2)
        /\ tid <> 0
        /\ gl_textures (gl w) !! tid = None
        /\ is_Some (gl_textures (gl res.2) !! tid)
        /\ java_heap (jvm w) !! o = None
        /\ java_heap (jvm w) !! ol = None
        /\ deref (jvm res.2) st = Some o
        /\ java_heap (jvm res.2) !! o
           = Some (JSurfaceTexture tid (Some ol) identity_transform [])
        /\ java_heap (jvm res.2) !! ol
           = Some (JSurfaceTextureListener (QSurfaceTexture.this it))
        /\ QSurfaceTexture.m_textureId res.1.1 = tid
        /\ QSurfaceTexture.m_surfaceTexture res.1.1 = MkJniObject st
        /\ SurfaceTextureNode.m_textureId res.1.2 = tid
        /\ SurfaceTextureNode.m_surfaceTexture res.1.2 = MkJniObject st).
Proof.
  split; [|split].
  - intros node. apply updatePaintNode_node_run.
  - intros node. rewrite updatePaintNode_node_run. cbn [snd trace].
    rewrite creation_calls_app. cbn. apply app_nil_r.
  - cbv zeta. rewrite first_paint_run. cbv zeta.
    cbn [fst snd trace gl jvm gl_textures jni_refs java_heap
         QSurfaceTexture.m_textureId QSurfaceTexture.m_surfaceTexture
         SurfaceTextureNode.m_textureId SurfaceTextureNode.m_surfaceTexture].
    set (tid := gl_fresh (gl w)).
    set (o1 := fresh_object (jvm w)). set (r1 := fresh_ref (jvm w)).
    set (j1 := MkJVM _ _).
    set (o2 := fresh_object j1). set (r2 := fresh_ref j1).
    set (j2 := MkJVM _ _).
    set (o3 := fresh_object j2). set (a := fresh_ref j2).
    set (j3 := MkJVM _ _). set (r := fresh_ref j3).
    assert (Ho21 : o2 <> o1) by apply fresh_object_after_insert.
    assert (Hr21 : r2 <> r1) by apply fresh_ref_after_insert.
    assert (H1 : java_heap j2 !! o1
                 = Some (JSurfaceTexture tid (Some o2) identity_transform []))
      by apply lookup_insert_eq.
    assert (H2 : java_heap j2 !! o2
                 = Some (JSurfaceTextureListener (QSurfaceTexture.this it))).
    { unfold j2. cbn [java_heap]. rewrite lookup_insert_ne by congruence.
      apply lookup_insert_eq. }
    assert (Hr1 : jni_refs j2 !! r1 = Some (MkRef true o1)).
    { unfold j2. cbn [jni_refs]. rewrite lookup_insert_ne by assumption.
      apply lookup_insert_eq. }
    assert (Ho31 : o3 <> o1) by (apply fresh_object_not_used; rewrite H1; eauto).
    assert (Ho32 : o3 <> o2) by (apply fresh_object_not_used; rewrite H2; eauto).
    assert (Ha1 : a <> r1) by (apply fresh_ref_not_used; rewrite Hr1; eauto).
    assert (Hr3 : jni_refs j3 !! r1 = Some (MkRef true o1)).
    { unfold j3. cbn [jni_refs]. rewrite lookup_insert_ne by assumption. exact Hr1. }
    assert (Hrr1 : r <> r1) by (apply fresh_ref_not_used; rewrite Hr3; eauto).
    exists tid, r1, r2, o1, o2. repeat split.
    + rewrite creation_calls_app. reflexivity.
    + apply in_or_app. right. cbn. tauto.
    + apply gl_fresh_nonzero.
    + apply gl_fresh_unused.
    + rewrite lookup_insert_eq. eauto.
    + apply fresh_object_unused.
    + pose proof (fresh_object_unused j1) as H. fold o2 in H. unfold j1 in H.
      cbn [java_heap] in H. rewrite lookup_insert_ne in H by congruence. exact H.
    + unfold deref. cbn [jni_refs]. rewrite lookup_delete_ne by congruence.
      rewrite !lookup_insert_ne by congruence. rewrite lookup_insert_eq.
      reflexivity.
    + rewrite lookup_insert_ne by assumption. exact H1.
    + rewrite lookup_insert_ne by assumption. exact H2.
Qed.

Lemma texparam_calls_app (tr l : list Event) :
  texparam_calls (tr ++ l) = texparam_calls tr ++ texparam_calls l.
Proof. apply List.filter_app. Qed.

(** C4: the first paint makes exactly four parameter calls, on the texture
    it has just generated and bound: [glTexParameterf] of the minification
    filter to GL_NEAREST and of the magnification filter to GL_LINEAR,
    [glTexParameteri] of the wrap modes S and T to GL_CLAMP_TO_EDGE.  The
    texture, which was not in use before, ends with these four parameters
    and no other, and is bound to the external target. *)
Theorem first_paint_texture_parameters (it : QSurfaceTexture.t) (w : World) :
  let res := QSurfaceTexture.updatePaintNode it None w in
  let tid := QSurfaceTexture.m_textureId res.1.1 in
  let calls :=
    [E_glTexParameterf GL_TEXTURE_EXTERNAL_OES GL_TEXTURE_MIN_FILTER (GLfloat_of GL_NEAREST);
     E_glTexParameterf GL_TEXTURE_EXTERNAL_OES GL_TEXTURE_MAG_FILTER (GLfloat_of GL_LINEAR);
     E_glTexParameteri GL_TEXTURE_EXTERNAL_OES GL_TEXTURE_WRAP_S GL_CLAMP_TO_EDGE;
     E_glTexParameteri GL_TEXTURE_EXTERNAL_OES GL_TEXTURE_WRAP_T GL_CLAMP_TO_EDGE] in
  texparam_calls (trace res.2) = texparam_calls (trace w) ++ calls
  /\ (exists rest,
        trace res.2
        = trace w ++ [E_glGenTextures 1 [tid];
                      E_glBindTexture GL_TEXTURE_EXTERNAL_OES tid] ++ calls ++ rest)
  /\ gl_textures (gl w) !! tid = None
  /\ gl_textures (gl res.2) !! tid = Some first_paint_params
  /\ gl_bound GL_TEXTURE_EXTERNAL_OES (gl res.2) = tid
  /\ first_paint_params !! GL_TEXTURE_MIN_FILTER = Some (ParamF (GLfloat_of GL_NEAREST))
  /\ first_paint_params !! GL_TEXTURE_MAG_FILTER = Some (ParamF (GLfloat_of GL_LINEAR))
  /\ first_paint_params !! GL_TEXTURE_WRAP_S = Some (ParamI GL_CLAMP_TO_EDGE)
  /\ first_paint_params !! GL_TEXTURE_WRAP_T = Some (ParamI GL_CLAMP_TO_EDGE)
  /\ size first_paint_params = 4%nat.
Proof.
  cbv zeta. rewrite first_paint_run. cbv zeta.
  cbn [fst snd trace gl gl_textures QSurfaceTexture.m_textureId].
  repeat split.
  - rewrite texparam_calls_app. reflexivity.
  - eexists. cbn [app]. reflexivity.
  - apply gl_fresh_unused.
  - apply lookup_insert_eq.
  - unfold gl_bound. cbn [gl_bindings gl_active]. rewrite lookup_insert_eq. reflexivity.
Qed.

(** ** The rectangle handed to the geometry *)

Lemma geometry_calls_app (tr l : list Event) :
  geometry_calls (tr ++ l) = geometry_calls tr ++ geometry_calls l.
Proof. apply omap_app. Qed.

(** Every call hands over the flipped bounding rectangle and the unit
    square, and stores their corners in the node. *)
Lemma updatePaintNode_geometry (it : QSurfaceTexture.t)
  (n : option SurfaceTextureNode.t) (w : World) :
  let res := QSurfaceTexture.updatePaintNode it n w in
  let rect := QSurfaceTexture.flipped (QSurfaceTexture.boundingRect it) in
  geometry_calls (trace res.2)
  = geometry_calls (trace w) ++ [(rect, QSurfaceTexture.unit_square)]
  /\ SurfaceTextureNode.m_geometry res.1.2
     = rect_geometry rect QSurfaceTexture.unit_square.
Proof.
  cbv zeta. destruct n as [node|].
  - rewrite updatePaintNode_node_run. cbn [fst snd trace].
    rewrite geometry_calls_app. split; reflexivity.
  - rewrite first_paint_run. cbv zeta. cbn [fst snd trace].
    rewrite geometry_calls_app. split; reflexivity.
Qed.

(** The edges that the flip gets right whatever the size of the item. *)
Lemma flipped_boundingRect_any (it : QSurfaceTexture.t) :
  let r := QSurfaceTexture.boundingRect it in
  let r' := QSurfaceTexture.flipped r in
  QRectF.top r' = QRectF.bottom r
  /\ QRectF.left r' = QRectF.left r /\ QRectF.right r' = QRectF.right r.
Proof.
  unfold QSurfaceTexture.boundingRect, QSurfaceTexture.flipped.
  destruct (QSurfaceTexture.height it) as [[]|[]| |s m e]; cbn;
    repeat split; reflexivity.
Qed.

(** The bottom edge is the old top edge exactly for a finite height. *)
Lemma flipped_boundingRect_bottom (it : QSurfaceTexture.t) :
  let r := QSurfaceTexture.boundingRect it in
  QRectF.bottom (QSurfaceTexture.flipped r) = QRectF.top r
  <-> is_finite (QSurfaceTexture.height it) = true.
Proof.
  cbv zeta. split.
  - unfold QSurfaceTexture.boundingRect, QSurfaceTexture.flipped.
    destruct (QSurfaceTexture.height it) as [[]|[]| |s m e]; cbn;
      try reflexivity; discriminate.
  - intros H. apply (flipped_boundingRect it H).
Qed.

(** C9, for items of finite height: every call, with or without a node,
    hands to [updateTexturedRectGeometry] the bounding rectangle with top and
    bottom swapped and left and right as they were, and the rectangle
    (0, 0, 1, 1) for the texture.  Top, left, right and the texture rectangle
    are so for every item; the bottom edge is the old top edge exactly when
    the height is finite. *)
Theorem updatePaintNode_flips (it : QSurfaceTexture.t)
  (n : option SurfaceTextureNode.t) (w : World) :
  let res := QSurfaceTexture.updatePaintNode it n w in
  let bounds := QSurfaceTexture.boundingRect it in
  exists rect textureRect,
    geometry_calls (trace res.2) = geometry_calls (trace w) ++ [(rect, textureRect)]
    /\ SurfaceTextureNode.m_geometry res.1.2 = rect_geometry rect textureRect
    /\ textureRect = QRectF.Mk f64_zero f64_zero f64_one f64_one
    /\ (QRectF.left textureRect, QRectF.top textureRect,
        QRectF.right textureRect, QRectF.bottom textureRect)
       = (f64_zero, f64_zero, f64_one, f64_one)
    /\ QRectF.top rect = QRectF.bottom bounds
    /\ QRectF.left rect = QRectF.left bounds
    /\ QRectF.right rect = QRectF.right bounds
    /\ (QRectF.bottom rect = QRectF.top bounds
        <-> is_finite (QSurfaceTexture.height it) = true).
Proof.
  cbv zeta. destruct (updatePaintNode_geometry it n w) as [Hcalls Hgeom].
  destruct (flipped_boundingRect_any it) as (Htop & Hleft & Hright).
  exists (QSurfaceTexture.flipped (QSurfaceTexture.boundingRect it)),
         QSurfaceTexture.unit_square.
  split; [exact Hcalls|]. split; [exact Hgeom|]. split; [reflexivity|].
  split; [reflexivity|]. split; [exact Htop|]. split; [exact Hleft|].
  split; [exact Hright|]. apply flipped_boundingRect_bottom.
Qed.

(** C9 as stated fails: for an item of infinite height the rectangle handed
    over has a NaN for its bottom edge, not the top edge of the bounding
    rectangle, which is 0. *)
Lemma updatePaintNode_infinite_height_no_flip :
  let res := QSurfaceTexture.updatePaintNode endless_item None initial_world in
  exists rect textureRect,
    geometry_calls (trace res.2) = [(rect, textureRect)]
    /\ QRectF.bottom rect = S754_nan
    /\ QRectF.top (QSurfaceTexture.boundingRect endless_item) = S754_zero false
    /\ QRectF.bottom rect <> QRectF.top (QSurfaceTexture.boundingRect endless_item).
Proof.
  cbv zeta. destruct (updatePaintNode_geometry endless_item None initial_world)
    as [Hcalls _].
  eexists _, _. split; [exact Hcalls|].
  split; [reflexivity|]. split; [reflexivity|]. discriminate.
Qed.

(** ** The properties at work: the first paint of a 640 by 480 item, then a
    frame *)

Lemma painted_array16 :
  is_array16 (jvm frame_world) (SurfaceTextureNode.m_uSTMatrixArray painted_node).
Proof. eexists. split; [vm_compute; reflexivity|reflexivity]. Qed.

Lemma preprocess_sequence_witness :
  SurfaceTextureNode.material painted_node = Some painted_material
  /\ exists uSTMatrix,
       (SurfaceTextureNode.preprocess painted_node frame_world).1
       = SurfaceTextureNode.set_material
           (Some (MkMaterial (mat_flags painted_material) (State.Mk uSTMatrix)))
           painted_node
       /\ flat16 (QMatrix4x4.m uSTMatrix) = flat16 flip_transform.
Proof.
  split; [reflexivity|].
  destruct (preprocess_sequence painted_node painted_material frame_world eq_refl)
    as (_ & (uSTMatrix & Hnode & _ & Hfill) & _).
  exists uSTMatrix. split; [exact Hnode|].
  apply (Hfill painted_texture_object 1 (Some 1) identity_transform [flip_transform]).
  - exact painted_array16.
  - vm_compute. reflexivity.
  - vm_compute. reflexivity.
Defined.

Lemma matrix_array_lifecycle_witness :
  is_array16 (jvm frame_world) (SurfaceTextureNode.m_uSTMatrixArray painted_node)
  /\ is_array16 (jvm (SurfaceTextureNode.preprocess painted_node frame_world).2)
                (SurfaceTextureNode.m_uSTMatrixArray painted_node)
  /\ is_array16 (jvm (render painted_texture_object
                        [[flip_transform]; []; [identity_transform; flip_transform]]
                        painted_node painted_world).2)
                (SurfaceTextureNode.m_uSTMatrixArray painted_node)
  /\ jni_refs (jvm (SurfaceTextureNode.dtor painted_node painted_world).2)
     = delete (SurfaceTextureNode.m_uSTMatrixArray painted_node)
              (jni_refs (jvm painted_world)).
Proof.
  destruct matrix_array_lifecycle as (_ & Hpre & Hrender & Hdtor).
  split; [exact painted_array16|]. split; [|split].
  - destruct (Hpre painted_node frame_world) as (_ & _ & _ & Hkeep & Hcalls).
    assert (SurfaceTextureNode.material painted_node <> None) as Hmat
      by (vm_compute; discriminate).
    destruct (Hcalls Hmat) as (pre & post & _).
    exact (Hkeep painted_array16).
  - destruct (Hrender painted_texture_object
                [[flip_transform]; []; [identity_transform; flip_transform]]
                painted_node painted_world) as (_ & _ & _ & Hkeep).
    apply Hkeep. eexists. split; [vm_compute; reflexivity|reflexivity].
  - destruct (Hdtor painted_node painted_world) as (_ & Hrefs).
    apply (Hrefs 2). vm_compute. reflexivity.
Defined.

Lemma preprocess_without_material_witness :
  SurfaceTextureNode.material bare_node = None
  /\ SurfaceTextureNode.preprocess bare_node frame_world = (bare_node, frame_world).
Proof.
  split; [reflexivity|].
  apply (preprocess_without_material bare_node frame_world). reflexivity.
Defined.

Lemma destructors_release_witness :
  QSurfaceTexture.m_textureId painted_item <> 0
  /\ gl_textures (gl (QSurfaceTexture.dtor painted_item painted_world).2)
       !! QSurfaceTexture.m_textureId painted_item = None
  /\ gl_bound GL_TEXTURE_EXTERNAL_OES (gl (QSurfaceTexture.dtor painted_item painted_world).2)
     = 0
  /\ jni_refs (jvm (SurfaceTextureNode.dtor painted_node painted_world).2)
       !! SurfaceTextureNode.m_uSTMatrixArray painted_node = None
  /\ forall r, deref (jvm (SurfaceTextureNode.dtor painted_node painted_world).2) r
               <> Some 2.
Proof.
  assert (Hid : QSurfaceTexture.m_textureId painted_item <> 0)
    by (vm_compute; discriminate).
  destruct (destructors_release painted_world) as [Hitem Hnode].
  destruct (Hitem painted_item Hid) as (_ & Hgone & _ & Hbound).
  assert (Href : jni_refs (jvm painted_world)
                   !! SurfaceTextureNode.m_uSTMatrixArray painted_node
                 = Some (MkRef true 2)) by (vm_compute; reflexivity).
  destruct (Hnode painted_node 2 Href) as (_ & Hdel & Hreach).
  split; [exact Hid|]. split; [exact Hgone|]. split; [exact Hbound|].
  split; [exact Hdel|]. apply Hreach.
  intros r Hr. unfold deref.
  destruct (jni_refs (jvm painted_world) !! r) as [e|] eqn:E; [|discriminate].
  cbn. intros [= Ho].
  assert (Hall : map_Forall (fun k v => ref_object v = 2 -> k = SurfaceTextureNode.m_uSTMatrixArray painted_node)
                            (jni_refs (jvm painted_world))).
  { apply map_Forall_to_list. vm_compute. repeat constructor; cbn; intros; (reflexivity || discriminate). }
  apply Hr. apply (Hall r e E Ho).
Defined.

Lemma dtor_without_texture_witness :
  QSurfaceTexture.m_textureId (QSurfaceTexture.ctor 4096 0) = 0
  /\ QSurfaceTexture.dtor (QSurfaceTexture.ctor 4096 0) painted_world = (tt, painted_world)
  /\ gl_calls (trace (QSurfaceTexture.dtor (QSurfaceTexture.ctor 4096 0) painted_world).2)
     = gl_calls (trace painted_world).
Proof.
  split; [reflexivity|].
  destruct (dtor_without_texture painted_world) as [Hzero _].
  apply (Hzero (QSurfaceTexture.ctor 4096 0)). reflexivity.
Defined.

Lemma updatePaintNode_flips_witness :
  is_finite (QSurfaceTexture.height sample_item) = true
  /\ exists rect textureRect,
       geometry_calls (trace (QSurfaceTexture.updatePaintNode sample_item None initial_world).2)
       = [(rect, textureRect)]
       /\ QRectF.top rect = QRectF.bottom (QSurfaceTexture.boundingRect sample_item)
       /\ QRectF.bottom rect = QRectF.top (QSurfaceTexture.boundingRect sample_item).
Proof.
  split; [reflexivity|].
  destruct (updatePaintNode_flips sample_item None initial_world)
    as (rect & textureRect & Hcalls & _ & _ & _ & Htop & _ & _ & Hbottom).
  exists rect, textureRect. split; [exact Hcalls|]. split; [exact Htop|].
  apply Hbottom. reflexivity.
Defined.

(** * Further properties *)

(** ** What [compare] takes for equal *)

Lemma f32_eq_same_number (a b : float32) :
  f32_eq a b = true <-> same_number a b.
Proof.
  unfold f32_eq, SFeqb, same_number.
  destruct a as [[]|[]| |[] ma ea], b as [[]|[]| |[] mb eb]; cbn;
    try (split; [discriminate | intros (Ha & Hb & [Hc|[Hc Hd]]); discriminate]);
    try (split; [intros _; repeat split;
                 ((left; reflexivity) || (right; split; reflexivity))
                | reflexivity]).
  - split.
    + intros H. destruct (Z.compare_spec ea eb) as [He|He|He]; try discriminate H.
      destruct (Pos.compare_cont Eq ma mb) eqn:Hm; try discriminate H.
      change (Pos.compare_cont Eq ma mb) with (ma ?= mb)%positive in Hm.
      apply Pos.compare_eq_iff in Hm. subst. repeat split. left; reflexivity.
    + intros (_ & _ & [E|[? ?]]); [|discriminate]. injection E as -> ->.
      rewrite Z.compare_refl, Pos.compare_cont_refl. reflexivity.
  - split.
    + intros H. destruct (Z.compare_spec ea eb) as [He|He|He]; try discriminate H.
      destruct (Pos.compare_cont Eq ma mb) eqn:Hm; try discriminate H.
      change (Pos.compare_cont Eq ma mb) with (ma ?= mb)%positive in Hm.
      apply Pos.compare_eq_iff in Hm. subst. repeat split. left; reflexivity.
    + intros (_ & _ & [E|[? ?]]); [|discriminate]. injection E as -> ->.
      rewrite Z.compare_refl, Pos.compare_cont_refl. reflexivity.
Qed.

Lemma same_number_trans (a b c : float32) :
  same_number a b -> same_number b c -> same_number a c.
Proof.
  intros (Ha & Hb & [Hab|[Za Zb]]) (_ & Hc & [Hbc|[Zb' Zc]]); repeat split; trivial.
  - left. congruence.
  - right. subst b. auto.
  - right. subst c. auto.
  - right. auto.
Qed.

Lemma f32_eq_trans (a b c : float32) :
  f32_eq a b = true -> f32_eq b c = true -> f32_eq a c = true.
Proof.
  rewrite !f32_eq_same_number. apply same_number_trans.
Qed.

Lemma arr4_all2_trans {A} (f : A -> A -> bool) (x y z : Arr4 A) :
  (forall a b c, f a b = true -> f b c = true -> f a c = true) ->
  arr4_all2 f x y = true -> arr4_all2 f y z = true -> arr4_all2 f x z = true.
Proof.
  intros Hf. unfold arr4_all2. rewrite !andb_true_iff.
  intros [[[H0 H1] H2] H3] [[[K0 K1] K2] K3]. eauto 10.
Qed.

Lemma compare_zero_eq (s t : State.t) :
  State.compare s t = 0
  <-> QMatrix4x4.eq (State.uSTMatrix s) (State.uSTMatrix t) = true.
Proof.
  unfold State.compare. destruct (QMatrix4x4.eq _ _); split; congruence.
Qed.

(** X1: [compare] returns 0 exactly when the matrices hold, entry by entry,
    the same number: no NaN on either side, and the same float or two
    zeros of any sign.  The flags of the matrices play no part. *)
Theorem compare_zero_same_numbers (s t : State.t) :
  (State.compare s t = 0
   <-> Forall2 same_number (flat16 (QMatrix4x4.m (State.uSTMatrix s)))
                           (flat16 (QMatrix4x4.m (State.uSTMatrix t))))
  /\ (State.compare s t = 0 ->
      QMatrix4x4.has_nan (State.uSTMatrix s) = false
      /\ QMatrix4x4.has_nan (State.uSTMatrix t) = false)
  /\ (forall fs ft : Z,
      State.compare
        (State.Mk (QMatrix4x4.Mk (QMatrix4x4.m (State.uSTMatrix s)) fs))
        (State.Mk (QMatrix4x4.Mk (QMatrix4x4.m (State.uSTMatrix t)) ft))
      = State.compare s t).
Proof.
  split; [|split].
  - rewrite compare_zero_eq, QMatrix4x4_eq_entrywise. split; intros H.
    + eapply Forall2_impl; [exact H|]. intros u v. apply f32_eq_same_number.
    + eapply Forall2_impl; [exact H|]. intros u v. apply f32_eq_same_number.
  - rewrite compare_zero_eq. intros H.
    assert (Hsym : QMatrix4x4.eq (State.uSTMatrix t) (State.uSTMatrix s) = true)
      by (rewrite QMatrix4x4_eq_sym; exact H).
    assert (Htrans : forall x y z, QMatrix4x4.eq x y = true ->
              QMatrix4x4.eq y z = true -> QMatrix4x4.eq x z = true).
    { intros x y z. apply arr4_all2_trans.
      intros a b c. apply arr4_all2_trans, f32_eq_trans. }
    pose proof (Htrans _ _ _ H Hsym) as Hs.
    pose proof (Htrans _ _ _ Hsym H) as Ht.
    rewrite QMatrix4x4_eq_refl in Hs, Ht.
    split; [destruct (QMatrix4x4.has_nan (State.uSTMatrix s))
           |destruct (QMatrix4x4.has_nan (State.uSTMatrix t))];
      (reflexivity || discriminate).
  - intros fs ft. reflexivity.
Qed.

Lemma compare_zero_same_numbers_witness :
  State.compare (State.Mk QMatrix4x4.identity) signed_zero_state = 0
  /\ QMatrix4x4.has_nan (State.uSTMatrix signed_zero_state) = false.
Proof.
  assert (H : State.compare (State.Mk QMatrix4x4.identity) signed_zero_state = 0).
  { apply (proj1 (compare_zero_same_numbers (State.Mk QMatrix4x4.identity)
                    signed_zero_state)).
    repeat (apply List.Forall2_cons;
            [repeat split; ((left; reflexivity) || (right; split; reflexivity))|]).
    apply List.Forall2_nil. }
  split; [exact H|].
  apply (proj1 (proj2 (compare_zero_same_numbers (State.Mk QMatrix4x4.identity)
                         signed_zero_state)) H).
Defined.

(** X2: the states that [compare] takes for equal are so transitively. *)
Theorem compare_zero_transitive (s t u : State.t) :
  State.compare s t = 0 -> State.compare t u = 0 -> State.compare s u = 0.
Proof.
  rewrite !compare_zero_eq. apply arr4_all2_trans.
  intros a b c. apply arr4_all2_trans, f32_eq_trans.
Qed.

Lemma compare_zero_transitive_witness :
  State.compare general_identity_state (State.Mk QMatrix4x4.identity) = 0
  /\ State.compare (State.Mk QMatrix4x4.identity) signed_zero_state = 0
  /\ State.compare general_identity_state signed_zero_state = 0.
Proof.
  split; [reflexivity|]. split; [reflexivity|].
  apply (compare_zero_transitive general_identity_state
           (State.Mk QMatrix4x4.identity) signed_zero_state); reflexivity.
Defined.

(** ** Frames *)

Lemma queue_frame_object (o : Z) (mtx : Arr4 (Arr4 float32)) (j : JVMState)
  texName listener transform queued :
  java_heap j !! o = Some (JSurfaceTexture texName listener transform queued) ->
  java_heap (queue_frame o mtx j) !! o
  = Some (JSurfaceTexture texName listener transform (queued ++ [mtx])).
Proof.
  intros H. unfold queue_frame. rewrite H. cbn. apply lookup_insert_eq.
Qed.

Lemma queue_batch_object (o : Z) (batch : list (Arr4 (Arr4 float32))) (j : JVMState)
  texName listener transform queued :
  java_heap j !! o = Some (JSurfaceTexture texName listener transform queued) ->
  java_heap (foldl (fun j mtx => queue_frame o mtx j) j batch) !! o
  = Some (JSurfaceTexture texName listener transform (queued ++ batch)).
Proof.
  revert j queued. induction batch as [|mtx batch IH]; intros j queued H; cbn [foldl].
  - rewrite app_nil_r. exact H.
  - rewrite (IH _ _ (queue_frame_object o mtx j _ _ _ _ H)).
    rewrite <- app_assoc. reflexivity.
Qed.

(** [getTransformMatrix] writes to arrays only. *)
Lemma getTransformMatrix_keeps_texture obj args g j o texName listener transform queued :
  java_heap j !! o = Some (JSurfaceTexture texName listener transform queued) ->
  java_heap (java_call obj "getTransformMatrix" args g j).2 !! o
  = Some (JSurfaceTexture texName listener transform queued).
Proof.
  intros Ho. unfold java_call. destruct (deref j obj) as [o'|]; [|exact Ho].
  unfold java_invoke.
  destruct (java_heap j !! o') as [[?|? ? ? ?|?|?]|]; try exact Ho.
  cbn [String.eqb Ascii.eqb Bool.eqb].
  destruct args as [|[| |mtx] [|]]; try exact Ho.
  destruct (deref j mtx) as [a|]; [|exact Ho].
  destruct (java_heap j !! a) as [[old| | |]|] eqn:Ha; try exact Ho.
  destruct (decide (length old = 16%nat)); [|exact Ho].
  cbn [snd java_heap]. rewrite lookup_insert_ne by congruence. exact Ho.
Qed.

(** One [preprocess] on a node in working order: the matrix gets the
    transform of the newest frame, or keeps the latched one when no frame
    waits, and the node is in working order again with nothing queued. *)
Lemma preprocess_serves (n : SurfaceTextureNode.t) (w : World) (o : Z)
  (transform : Arr4 (Arr4 float32)) (queued : list (Arr4 (Arr4 float32))) :
  node_serves n w o transform queued ->
  let n' := (SurfaceTextureNode.preprocess n w).1 in
  let w' := (SurfaceTextureNode.preprocess n w).2 in
  node_serves n' w' o (default transform (last queued)) []
  /\ node_matrix n' = Some (flat16 (default transform (last queued)))
  /\ SurfaceTextureNode.m_uSTMatrixArray n' = SurfaceTextureNode.m_uSTMatrixArray n
  /\ SurfaceTextureNode.m_surfaceTexture n' = SurfaceTextureNode.m_surfaceTexture n
  /\ SurfaceTextureNode.m_textureId n' = SurfaceTextureNode.m_textureId n.
Proof.
  intros (Hmat & H16 & Hd & listener & Ho). cbv zeta.
  destruct (SurfaceTextureNode.material n) as [mat|] eqn:Em; [|congruence].
  rewrite (preprocess_run n mat w Em). cbv zeta. cbn [fst snd jvm].
  set (st := object (SurfaceTextureNode.m_surfaceTexture n)) in *.
  set (arr := SurfaceTextureNode.m_uSTMatrixArray n) in *.
  set (c1 := java_call st "updateTexImage" [] (gl w) (jvm w)).
  set (c2 := java_call st "getTransformMatrix" [JRef arr] c1.1 c1.2).
  destruct (updateTexImage_latches st (gl w) (jvm w) o _ _ _ _ Hd Ho) as [Ho1 Hd1].
  fold c1 in Ho1, Hd1.
  pose proof (java_call_array16 st "updateTexImage" [] (gl w) (jvm w) arr H16) as H16a.
  fold c1 in H16a.
  pose proof (getTransformMatrix_fills st arr c1.1 c1.2 o _ _ _ _ Hd1 Ho1 H16a) as Hfill.
  fold c2 in Hfill.
  pose proof (getTransformMatrix_keeps_texture st [JRef arr] c1.1 c1.2 o _ _ _ _ Ho1) as Ho2.
  fold c2 in Ho2.
  assert (Hd2 : deref c2.2 st = Some o).
  { unfold deref in *. unfold c2. rewrite java_call_refs. exact Hd1. }
  rewrite (float_region_full _ _ _ Hfill (flat16_length _)). cbn [default].
  split; [|split; [|repeat split]].
  - split; [discriminate|]. split; [|split].
    + eexists. split; [exact Hfill|apply flat16_length].
    + exact Hd2.
    + exists listener. exact Ho2.
  - unfold node_matrix.
    cbn [fmap option_fmap option_map SurfaceTextureNode.material
         SurfaceTextureNode.set_material state State.uSTMatrix].
    rewrite store_data_flat by apply flat16_length. reflexivity.
Qed.

Lemma default_last_app {A} (d : A) (l1 l2 : list A) :
  default (default d (last l1)) (last l2) = default d (last (l1 ++ l2)).
Proof.
  rewrite last_app. destruct (last l2); reflexivity.
Qed.

Lemma queue_batch_serves (o : Z) (batch : list (Arr4 (Arr4 float32)))
  (n : SurfaceTextureNode.t) (w : World) transform queued :
  node_serves n w o transform queued ->
  node_serves n
    (MkWorld (trace w) (gl w)
             (foldl (fun j mtx => queue_frame o mtx j) (jvm w) batch) (qt w))
    o transform (queued ++ batch).
Proof.
  intros (Hmat & H16 & Hd & listener & Ho).
  destruct (queue_batch_keeps o batch (jvm w) (SurfaceTextureNode.m_uSTMatrixArray n))
    as [Q1 Q2].
  split; [exact Hmat|]. split; [exact (Q2 H16)|]. split.
  - unfold deref in *. cbn [jvm]. rewrite Q1. exact Hd.
  - exists listener. apply queue_batch_object, Ho.
Qed.

(** X3: over any run of the renderer on a node in working order, with
    frames queued in batches between the calls, the matrix of the node ends
    as the transform of the newest frame of all (the latched transform if
    none came), whatever came before it; the node is in working order
    again and no frame is left waiting. *)
Theorem render_shows_newest_frame (o : Z) (batches : list (list (Arr4 (Arr4 float32))))
  (n : SurfaceTextureNode.t) (w : World)
  (transform : Arr4 (Arr4 float32)) (queued : list (Arr4 (Arr4 float32))) :
  node_serves n w o transform queued ->
  batches <> [] ->
  let n' := (render o batches n w).1 in
  let w' := (render o batches n w).2 in
  let newest := default transform (last (queued ++ concat batches)) in
  node_matrix n' = Some (flat16 newest)
  /\ node_serves n' w' o newest [].
Proof.
  cbv zeta. revert n w transform queued.
  induction batches as [|batch rest IH]; intros n w transform queued Hn Hne;
    [congruence|].
  open_world w. cbn [render]. run.
  pose proof (queue_batch_serves o batch n _ transform queued Hn) as Hq.
  cbn [trace gl jvm qt] in Hq.
  match goal with
  | |- context [SurfaceTextureNode.preprocess n ?w1] =>
      pose proof (preprocess_serves n w1 o transform (queued ++ batch) Hq) as P;
      destruct (SurfaceTextureNode.preprocess n w1) as [n2 w2]
  end.
  cbv zeta in P. cbn [fst snd] in P. destruct P as (Hserve & Hmatrix & _).
  cbn [concat]. rewrite app_assoc, <- default_last_app.
  destruct rest as [|batch2 rest].
  - cbn [render concat last default]. split; [exact Hmatrix|exact Hserve].
  - assert (Hne2 : batch2 :: rest <> []) by discriminate.
    destruct (IH n2 w2 _ [] Hserve Hne2) as [I1 I2].
    cbn [app] in I1, I2. split; [exact I1|exact I2].
Qed.

(** ** What the first paint leaves alone *)

Lemma insert_keeps_is_Some `{Countable K} {A} (m : gmap K A) (k k' : K) (v : A) :
  is_Some (m !! k) -> is_Some (<[k' := v]> m !! k).
Proof. intros Hk. rewrite lookup_insert_is_Some. destruct (decide (k' = k)); auto. Qed.

(** The first paint with its names: the texture [tid]; the SurfaceTexture
    [o1] behind [r1]; the listener [o2] behind [r2]; the array [o3] behind
    the local [a] and the global [r]. *)
Lemma first_paint_named (it : QSurfaceTexture.t) (w : World) :
  exists tid o1 r1 j1 o2 r2 j2 o3 a j3 r,
    tid = gl_fresh (gl w)
    /\ o1 = fresh_object (jvm w) /\ r1 = fresh_ref (jvm w)
    /\ j1 = MkJVM (<[r1 := MkRef true o1]> (jni_refs (jvm w)))
                  (<[o1 := JSurfaceTexture tid None identity_transform []]>
                     (java_heap (jvm w)))
    /\ o2 = fresh_object j1 /\ r2 = fresh_ref j1
    /\ j2 = MkJVM (<[r2 := MkRef true o2]> (jni_refs j1))
                  (<[o1 := JSurfaceTexture tid (Some o2) identity_transform []]>
                     (<[o2 := JSurfaceTextureListener (QSurfaceTexture.this it)]>
                        (java_heap j1)))
    /\ o3 = fresh_object j2 /\ a = fresh_ref j2
    /\ j3 = MkJVM (<[a := MkRef false o3]> (jni_refs j2))
                  (<[o3 := JFloatArray (replicate 16 f32_zero)]> (java_heap j2))
    /\ r = fresh_ref j3
    /\ QSurfaceTexture.updatePaintNode it None w
       = ((QSurfaceTexture.Mk (QSurfaceTexture.this it) (QSurfaceTexture.flags it)
             (QSurfaceTexture.width it) (QSurfaceTexture.height it) tid
             (MkJniObject r1),
           SurfaceTextureNode.Mk
             (setFlag OwnsMaterial true (setFlag UsePreprocess true OwnedByParent))
             (Some (MkMaterial (setFlag Blending false 0)
                      (State.Mk QMatrix4x4.identity)))
             (MkJniObject r1)
             (rect_geometry
                (QSurfaceTexture.flipped (QSurfaceTexture.boundingRect it))
                QSurfaceTexture.unit_square) r tid),
          MkWorld
            (trace w ++
               [E_glGenTextures 1 [tid];
                E_glBindTexture GL_TEXTURE_EXTERNAL_OES tid;
                E_glTexParameterf GL_TEXTURE_EXTERNAL_OES GL_TEXTURE_MIN_FILTER
                                  (GLfloat_of GL_NEAREST);
                E_glTexParameterf GL_TEXTURE_EXTERNAL_OES GL_TEXTURE_MAG_FILTER
                                  (GLfloat_of GL_LINEAR);
                E_glTexParameteri GL_TEXTURE_EXTERNAL_OES GL_TEXTURE_WRAP_S
                                  GL_CLAMP_TO_EDGE;
                E_glTexParameteri GL_TEXTURE_EXTERNAL_OES GL_TEXTURE_WRAP_T
                                  GL_CLAMP_TO_EDGE;
                E_NewObject "android/graphics/SurfaceTexture" "(I)V" [JInt tid] r1;
                E_NewObject "com/kdab/android/SurfaceTextureListener" "(J)V"
                            [JLong (QSurfaceTexture.this it)] r2;
                E_callMethod r1 "setOnFrameAvailableListener"
                  "(Landroid/graphics/SurfaceTexture$OnFrameAvailableListener;)V"
                  [JRef r2];
                E_NewFloatArray 16 a; E_NewGlobalRef a r; E_DeleteLocalRef a;
                E_updateTexturedRectGeometry
                  (QSurfaceTexture.flipped (QSurfaceTexture.boundingRect it))
                  QSurfaceTexture.unit_square;
                E_markDirty (Z.lor DirtyGeometry DirtyMaterial)])
            (MkGL (<[tid := first_paint_params]> (gl_textures (gl w)))
                  (gl_active (gl w))
                  (<[(gl_active (gl w), GL_TEXTURE_EXTERNAL_OES) := tid]>
                     (gl_bindings (gl w))))
            (MkJVM (delete a (<[r := MkRef true o3]> (jni_refs j3))) (java_heap j3))
            (qt w)).
Proof.
  do 11 eexists. repeat (split; [reflexivity|]). exact (first_paint_run it w).
Qed.

Lemma first_paint_keeps (it : QSurfaceTexture.t) (w : World) :
  let w' := (QSurfaceTexture.updatePaintNode it None w).2 in
  (forall name, is_Some (gl_textures (gl w) !! name) ->
     gl_textures (gl w') !! name = gl_textures (gl w) !! name)
  /\ (forall key, key <> (gl_active (gl w), GL_TEXTURE_EXTERNAL_OES) ->
     gl_bindings (gl w') !! key = gl_bindings (gl w) !! key)
  /\ gl_active (gl w') = gl_active (gl w)
  /\ (forall r, is_Some (jni_refs (jvm w) !! r) ->
     jni_refs (jvm w') !! r = jni_refs (jvm w) !! r)
  /\ (forall o, is_Some (java_heap (jvm w) !! o) ->
     java_heap (jvm w') !! o = java_heap (jvm w) !! o)
  /\ qt w' = qt w.
Proof.
  cbv zeta.
  destruct (first_paint_named it w)
    as (tid & o1 & r1 & j1 & o2 & r2 & j2 & o3 & a & j3 & r
        & Etid & Eo1 & Er1 & Ej1 & Eo2 & Er2 & Ej2 & Eo3 & Ea & Ej3 & Er & E).
  rewrite E. cbn [snd gl jvm qt gl_textures gl_bindings gl_active jni_refs java_heap].
  split; [|split; [|split; [|split; [|split]]]].
  - intros name Hname. rewrite lookup_insert_ne; [reflexivity|].
    intros <-. rewrite Etid, gl_fresh_unused in Hname.
    destruct Hname as [? ?]. discriminate.
  - intros key Hkey. rewrite lookup_insert_ne by congruence. reflexivity.
  - reflexivity.
  - intros x Hx.
    assert (H1 : is_Some (jni_refs j1 !! x))
      by (rewrite Ej1; apply insert_keeps_is_Some, Hx).
    assert (H2 : is_Some (jni_refs j2 !! x))
      by (rewrite Ej2; apply insert_keeps_is_Some, H1).
    assert (H3 : is_Some (jni_refs j3 !! x))
      by (rewrite Ej3; apply insert_keeps_is_Some, H2).
    assert (N1 : r1 <> x) by (rewrite Er1; apply fresh_ref_not_used, Hx).
    assert (N2 : r2 <> x) by (rewrite Er2; apply fresh_ref_not_used, H1).
    assert (N3 : a <> x) by (rewrite Ea; apply fresh_ref_not_used, H2).
    assert (N4 : r <> x) by (rewrite Er; apply fresh_ref_not_used, H3).
    rewrite Ej3, Ej2, Ej1. cbn [jni_refs].
    rewrite lookup_delete_ne by assumption.
    rewrite !lookup_insert_ne by assumption. reflexivity.
  - intros x Hx.
    assert (H1 : is_Some (java_heap j1 !! x))
      by (rewrite Ej1; apply insert_keeps_is_Some, Hx).
    assert (H2 : is_Some (java_heap j2 !! x))
      by (rewrite Ej2; apply insert_keeps_is_Some, insert_keeps_is_Some, H1).
    assert (N1 : o1 <> x) by (rewrite Eo1; apply fresh_object_not_used, Hx).
    assert (N2 : o2 <> x) by (rewrite Eo2; apply fresh_object_not_used, H1).
    assert (N3 : o3 <> x) by (rewrite Eo3; apply fresh_object_not_used, H2).
    rewrite Ej3, Ej2, Ej1. cbn [java_heap].
    rewrite !lookup_insert_ne by assumption. reflexivity.
  - reflexivity.
Qed.


(** ** The node stays in working order *)

(** A Java call leaves a SurfaceTexture a SurfaceTexture on its texture. *)
Lemma java_call_keeps_surface obj name args g j o texName listener transform queued :
  java_heap j !! o = Some (JSurfaceTexture texName listener transform queued) ->
  exists listener' transform' queued',
    java_heap (java_call obj name args g j).2 !! o
    = Some (JSurfaceTexture texName listener' transform' queued').
Proof.
  intros Ho. unfold java_call.
  destruct (deref j obj) as [o'|]; [|eauto].
  unfold java_invoke.
  destruct (java_heap j !! o') as [[?|t' l' tr' q'|?|?]|] eqn:Ho'; eauto.
  destruct (String.eqb name "updateTexImage").
  { cbn [snd java_heap]. destruct (decide (o' = o)) as [->|Hne].
    - rewrite lookup_insert_eq. rewrite Ho in Ho'. injection Ho' as <- <- <- <-. eauto.
    - rewrite lookup_insert_ne by assumption. eauto. }
  destruct (String.eqb name "getTransformMatrix").
  { destruct args as [|[| |mtx] [|]]; eauto.
    destruct (deref j mtx) as [a|]; eauto.
    destruct (java_heap j !! a) as [[old| | |]|] eqn:Ha; eauto.
    destruct (decide (length old = 16%nat)); eauto.
    cbn [snd java_heap]. rewrite lookup_insert_ne by congruence. eauto. }
  destruct (String.eqb name "setOnFrameAvailableListener"); eauto.
  destruct args as [|[| |l] [|]]; eauto.
  cbn [snd java_heap]. destruct (decide (o' = o)) as [->|Hne].
  - rewrite lookup_insert_eq. rewrite Ho in Ho'. injection Ho' as <- <- <- <-. eauto.
  - rewrite lookup_insert_ne by assumption. eauto.
Qed.

Lemma queue_frame_keeps_surface o' mtx j o texName listener transform queued :
  java_heap j !! o = Some (JSurfaceTexture texName listener transform queued) ->
  exists queued',
    java_heap (queue_frame o' mtx j) !! o
    = Some (JSurfaceTexture texName listener transform queued').
Proof.
  intros Ho. unfold queue_frame.
  destruct (java_heap j !! o') as [[?|t' l' tr' q'|?|?]|] eqn:Ho'; eauto.
  cbn [java_heap]. destruct (decide (o' = o)) as [->|Hne].
  - rewrite lookup_insert_eq. rewrite Ho in Ho'. injection Ho' as <- <- <- <-. eauto.
  - rewrite lookup_insert_ne by assumption. eauto.
Qed.

(** What makes a node in working order depends on the Java side only. *)
Lemma node_ok_jvm (n : SurfaceTextureNode.t) (w w' : World) :
  (forall r, is_array16 (jvm w) r -> is_array16 (jvm w') r) ->
  jni_refs (jvm w') = jni_refs (jvm w) ->
  (forall o texName listener transform queued,
     java_heap (jvm w) !! o = Some (JSurfaceTexture texName listener transform queued) ->
     exists listener' transform' queued',
       java_heap (jvm w') !! o
       = Some (JSurfaceTexture texName listener' transform' queued')) ->
  node_ok n w -> node_ok n w'.
Proof.
  intros Harr Hrefs Hsurf (o & transform & queued & Hmat & H16 & Hd & listener & Ho).
  destruct (Hsurf _ _ _ _ _ Ho) as (l' & tr' & q' & Ho').
  exists o, tr', q'. split; [exact Hmat|]. split; [exact (Harr _ H16)|]. split.
  - unfold deref in *. rewrite Hrefs. exact Hd.
  - exists l'. exact Ho'.
Qed.

(** The [preprocess] of any node keeps every node in working order. *)
Lemma preprocess_keeps_others (n other : SurfaceTextureNode.t) (w : World) :
  node_ok n w -> node_ok n (SurfaceTextureNode.preprocess other w).2.
Proof.
  destruct (SurfaceTextureNode.material other) as [mat|] eqn:Em.
  - rewrite (preprocess_run other mat w Em). cbv zeta. cbn [snd].
    apply node_ok_jvm; cbn [jvm].
    + intros r H. do 2 apply java_call_array16. exact H.
    + rewrite !java_call_refs. reflexivity.
    + intros o texName listener transform queued Ho.
      destruct (java_call_keeps_surface
                  (object (SurfaceTextureNode.m_surfaceTexture other))
                  "updateTexImage" [] (gl w) (jvm w) _ _ _ _ _ Ho)
        as (l1 & tr1 & q1 & H1).
      eapply java_call_keeps_surface. exact H1.
  - rewrite (preprocess_no_material other w Em). intros H. exact H.
Qed.

(** The first paint gives a node in working order, on the identity
    transform and with no frame waiting. *)
Lemma first_paint_serves (it : QSurfaceTexture.t) (w : World) :
  let res := QSurfaceTexture.updatePaintNode it None w in
  node_serves res.1.2 res.2 (fresh_object (jvm w)) identity_transform []
  /\ node_matrix res.1.2 = Some (flat16 identity_transform)
  /\ SurfaceTextureNode.m_textureId res.1.2 = QSurfaceTexture.m_textureId res.1.1
  /\ SurfaceTextureNode.m_surfaceTexture res.1.2
     = QSurfaceTexture.m_surfaceTexture res.1.1
  /\ Z.land (SurfaceTextureNode.flags res.1.2) UsePreprocess = UsePreprocess
  /\ Z.land (SurfaceTextureNode.flags res.1.2) OwnsMaterial = OwnsMaterial.
Proof.
  cbv zeta.
  destruct (first_paint_named it w)
    as (tid & o1 & r1 & j1 & o2 & r2 & j2 & o3 & a & j3 & r
        & Etid & Eo1 & Er1 & Ej1 & Eo2 & Er2 & Ej2 & Eo3 & Ea & Ej3 & Er & E).
  rewrite E. rewrite <- Eo1.
  cbn [fst snd SurfaceTextureNode.m_textureId SurfaceTextureNode.m_surfaceTexture
       SurfaceTextureNode.flags QSurfaceTexture.m_textureId
       QSurfaceTexture.m_surfaceTexture].
  assert (H1 : java_heap j2 !! o1
               = Some (JSurfaceTexture tid (Some o2) identity_transform []))
    by (rewrite Ej2; apply lookup_insert_eq).
  assert (Hr21 : r2 <> r1) by (rewrite Er2, Ej1; apply fresh_ref_after_insert).
  assert (Hr1 : jni_refs j2 !! r1 = Some (MkRef true o1)).
  { rewrite Ej2, Ej1. cbn [jni_refs]. rewrite lookup_insert_ne by assumption.
    apply lookup_insert_eq. }
  assert (Ho31 : o3 <> o1) by (rewrite Eo3; apply fresh_object_not_used; rewrite H1; eauto).
  assert (Ha1 : a <> r1) by (rewrite Ea; apply fresh_ref_not_used; rewrite Hr1; eauto).
  assert (Hr3 : jni_refs j3 !! r1 = Some (MkRef true o1)).
  { rewrite Ej3. cbn [jni_refs]. rewrite lookup_insert_ne by assumption. exact Hr1. }
  assert (Hrr1 : r <> r1) by (rewrite Er; apply fresh_ref_not_used; rewrite Hr3; eauto).
  assert (Hra : r <> a) by (rewrite Er, Ej3; apply fresh_ref_after_insert).
  split; [|repeat split].
  split; [discriminate|]. split; [|split].
  - exists (replicate 16 f32_zero). split; [|reflexivity].
    unfold float_array, deref. cbn [jvm jni_refs java_heap object
      SurfaceTextureNode.m_uSTMatrixArray].
    rewrite lookup_delete_ne by congruence. rewrite lookup_insert_eq.
    cbn [fmap option_fmap option_map ref_object mbind option_bind].
    rewrite Ej3. cbn [java_heap]. rewrite lookup_insert_eq. reflexivity.
  - unfold deref. cbn [jvm jni_refs object SurfaceTextureNode.m_surfaceTexture].
    rewrite lookup_delete_ne by congruence. rewrite lookup_insert_ne by congruence.
    rewrite Hr3. reflexivity.
  - exists (Some o2). cbn [jvm java_heap SurfaceTextureNode.m_textureId].
    rewrite Ej3. cbn [java_heap]. rewrite lookup_insert_ne by assumption. exact H1.
Qed.

(** A world that keeps the references and objects of another keeps its
    nodes in working order. *)
Lemma node_serves_extends (n : SurfaceTextureNode.t) (w w' : World) o transform queued :
  (forall r, is_Some (jni_refs (jvm w) !! r) ->
     jni_refs (jvm w') !! r = jni_refs (jvm w) !! r) ->
  (forall x, is_Some (java_heap (jvm w) !! x) ->
     java_heap (jvm w') !! x = java_heap (jvm w) !! x) ->
  node_serves n w o transform queued -> node_serves n w' o transform queued.
Proof.
  intros Hrefs Hheap (Hmat & (elems & Ha & Hl) & Hd & listener & Ho).
  assert (Hderef : forall r x, deref (jvm w) r = Some x -> deref (jvm w') r = Some x).
  { intros r x. unfold deref. intros H.
    rewrite Hrefs; [exact H|]. destruct (jni_refs (jvm w) !! r); [eauto|discriminate]. }
  split; [exact Hmat|]. split; [|split].
  - exists elems. split; [|exact Hl]. unfold float_array in *.
    destruct (deref (jvm w) (SurfaceTextureNode.m_uSTMatrixArray n)) as [x|] eqn:Ex;
      [|discriminate].
    rewrite (Hderef _ _ Ex). cbn in *.
    rewrite Hheap; [exact Ha|]. destruct (java_heap (jvm w) !! x); [eauto|discriminate].
  - apply Hderef, Hd.
  - exists listener. rewrite Hheap; [exact Ho|]. rewrite Ho. eauto.
Qed.

(** X5: the first paint gives a node in working order, and everything the
    file does afterwards keeps it so: a [preprocess] of this or of any other
    node, a repaint of this or of any other node, the first paint of another
    item, the frame callback, and a frame queued on any object. *)
Theorem node_stays_in_order :
  (forall (it : QSurfaceTexture.t) (w : World),
     node_ok (QSurfaceTexture.updatePaintNode it None w).1.2
             (QSurfaceTexture.updatePaintNode it None w).2)
  /\ (forall (n : SurfaceTextureNode.t) (w : World),
     node_ok n w ->
     (forall other, node_ok n (SurfaceTextureNode.preprocess other w).2)
     /\ node_ok (SurfaceTextureNode.preprocess n w).1
                (SurfaceTextureNode.preprocess n w).2
     /\ (forall it node,
           node_ok n (QSurfaceTexture.updatePaintNode it (Some node) w).2)
     /\ (forall it,
           node_ok (QSurfaceTexture.updatePaintNode it (Some n) w).1.2
                   (QSurfaceTexture.updatePaintNode it (Some n) w).2)
     /\ (forall it, node_ok n (QSurfaceTexture.updatePaintNode it None w).2)
     /\ (forall env thiz ptr surfaceTexture,
           node_ok n (Java_com_kdab_android_SurfaceTextureListener_frameAvailable
                        env thiz ptr surfaceTexture w).2)
     /\ (forall o mtx,
           node_ok n (MkWorld (trace w) (gl w) (queue_frame o mtx (jvm w)) (qt w)))).
Proof.
  split.
  - intros it w. destruct (first_paint_serves it w) as (H & _). cbv zeta in H.
    eexists _, _, _. exact H.
  - intros n w Hn. split; [|split; [|split; [|split; [|split; [|split]]]]].
    + intros other. apply preprocess_keeps_others, Hn.
    + destruct Hn as (o & transform & queued & Hn).
      destruct (preprocess_serves n w o transform queued Hn) as (H & _).
      cbv zeta in H. eexists _, _, _. exact H.
    + intros it node. rewrite updatePaintNode_node_run. exact Hn.
    + intros it. rewrite updatePaintNode_node_run. exact Hn.
    + intros it. destruct Hn as (o & transform & queued & Hn).
      destruct (first_paint_keeps it w) as (_ & _ & _ & Hrefs & Hheap & _).
      exists o, transform, queued.
      apply (node_serves_extends n w _ o transform queued Hrefs Hheap Hn).
    + intros env thiz ptr surfaceTexture. exact Hn.
    + intros o mtx. apply (node_ok_jvm n w); cbn [jvm]; [| | |exact Hn].
      * intros r H. apply (queue_frame_keeps o mtx (jvm w) r), H.
      * apply (queue_frame_keeps o mtx (jvm w) 0).
      * intros x texName listener transform queued Hx.
        destruct (queue_frame_keeps_surface o mtx (jvm w) x _ _ _ _ Hx) as (q' & Hq).
        eauto.
Qed.

(** ** A second first paint *)

Lemma gl_bind_textures_other (target : GLenum) (t name : GLuint) (g : GLState) :
  name <> t ->
  gl_textures (gl_bind target t g) !! name = gl_textures g !! name.
Proof.
  intros H. unfold gl_bind. cbn [gl_textures].
  destruct (gl_textures g !! t); [reflexivity|].
  rewrite lookup_insert_ne by congruence. reflexivity.
Qed.

(** X6: when [updatePaintNode] is called without a node a second time (the
    scene graph dropped the first node), it generates a second texture and
    overwrites the id of the first in the item.  The destructor then deletes
    the second texture only: the first is still in use, with its
    parameters, after the item is gone. *)
Theorem second_first_paint_leaks (it : QSurfaceTexture.t) (w : World) :
  let res1 := QSurfaceTexture.updatePaintNode it None w in
  let res2 := QSurfaceTexture.updatePaintNode res1.1.1 None res1.2 in
  let w3 := (QSurfaceTexture.dtor res2.1.1 res2.2).2 in
  let tid1 := QSurfaceTexture.m_textureId res1.1.1 in
  let tid2 := QSurfaceTexture.m_textureId res2.1.1 in
  tid1 <> tid2
  /\ gl_textures (gl w) !! tid1 = None
  /\ gl_calls (trace w3)
     = gl_calls (trace res2.2)
       ++ [E_glBindTexture GL_TEXTURE_EXTERNAL_OES 0; E_glDeleteTextures 1 [tid2]]
  /\ gl_textures (gl w3) !! tid2 = None
  /\ gl_textures (gl w3) !! tid1 = Some first_paint_params.
Proof.
  cbv zeta.
  destruct (first_paint_named it w)
    as (tid1 & ? & ? & ? & ? & ? & ? & ? & ? & ? & ?
        & Etid1 & _ & _ & _ & _ & _ & _ & _ & _ & _ & _ & E1).
  rewrite E1. cbn [fst snd].
  match goal with
  | |- context [QSurfaceTexture.updatePaintNode ?it1 None ?w1] =>
      destruct (first_paint_named it1 w1)
        as (tid2 & ? & ? & ? & ? & ? & ? & ? & ? & ? & ?
            & Etid2 & _ & _ & _ & _ & _ & _ & _ & _ & _ & _ & E2);
      rewrite E2
  end.
  cbn [fst snd QSurfaceTexture.m_textureId gl gl_textures] in *.
  assert (H10 : tid1 <> 0) by (rewrite Etid1; apply gl_fresh_nonzero).
  assert (H20 : tid2 <> 0) by (rewrite Etid2; apply gl_fresh_nonzero).
  assert (H12 : tid1 <> tid2).
  { intros E. pose proof (gl_fresh_unused
      (MkGL (<[tid1 := first_paint_params]> (gl_textures (gl w))) (gl_active (gl w))
            (<[(gl_active (gl w), GL_TEXTURE_EXTERNAL_OES) := tid1]>
               (gl_bindings (gl w))))) as F.
    rewrite <- Etid2, <- E in F. cbn [gl_textures] in F.
    rewrite lookup_insert_eq in F. discriminate F. }
  rewrite item_dtor_run by exact H20. cbn [snd trace gl QSurfaceTexture.m_textureId].
  split; [exact H12|]. split; [rewrite Etid1; apply gl_fresh_unused|].
  split; [|split].
  - unfold gl_calls. rewrite List.filter_app. reflexivity.
  - apply gl_delete_gone, H20.
  - unfold gl_delete. rewrite decide_False by exact H20. cbn [gl_textures].
    rewrite lookup_delete_ne by congruence.
    rewrite gl_bind_textures_other by exact H10. cbn [gl_textures].
    rewrite lookup_insert_ne by congruence. apply lookup_insert_eq.
Qed.

(** ** Round trips *)

(** X7: constructing a node and destroying it gives back the JNI reference
    table exactly: the two references the constructor made are both gone,
    and no other reference was touched. *)
Theorem node_ctor_dtor_refs (surfaceTexture : QAndroidJniObject) (textureId : GLuint)
  (w : World) :
  let built := SurfaceTextureNode.ctor surfaceTexture textureId w in
  let w' := (SurfaceTextureNode.dtor built.1 built.2).2 in
  jni_refs (jvm w') = jni_refs (jvm w)
  /\ gl w' = gl w /\ qt w' = qt w
  /\ exists a r,
       trace w' = trace w ++ [E_NewFloatArray 16 a; E_NewGlobalRef a r;
                              E_DeleteLocalRef a; E_DeleteGlobalRef r].
Proof.
  cbv zeta. rewrite ctor_run. cbv zeta. cbn [fst snd].
  set (j := jvm w). set (o := fresh_object j). set (a := fresh_ref j).
  set (refs1 := <[a := MkRef false o]> (jni_refs j)).
  set (heap1 := <[o := JFloatArray (replicate 16 f32_zero)]> (java_heap j)).
  set (r := fresh_ref (MkJVM refs1 heap1)).
  assert (Hra : r <> a) by apply fresh_ref_after_insert.
  assert (Ha : jni_refs j !! a = None) by apply fresh_ref_unused.
  assert (Hr : jni_refs j !! r = None).
  { pose proof (fresh_ref_unused (MkJVM refs1 heap1)) as H. fold r in H.
    unfold refs1 in H. cbn [jni_refs] in H.
    rewrite lookup_insert_ne in H by congruence. exact H. }
  unfold SurfaceTextureNode.dtor. cbn [SurfaceTextureNode.m_uSTMatrixArray]. run.
  unfold delete_ref. cbn [jni_refs java_heap].
  rewrite lookup_delete_ne by congruence. rewrite lookup_insert_eq.
  cbn [ref_global Bool.eqb jni_refs].
  split; [|split; [reflexivity|split; [reflexivity|]]].
  - apply map_eq. intros x. unfold refs1.
    destruct (decide (x = r)) as [->|Hxr];
      [rewrite lookup_delete_eq; symmetry; exact Hr|].
    rewrite lookup_delete_ne by congruence.
    destruct (decide (x = a)) as [->|Hxa];
      [rewrite lookup_delete_eq; symmetry; exact Ha|].
    rewrite lookup_delete_ne by congruence.
    rewrite !lookup_insert_ne by congruence. reflexivity.
  - exists a, r. trace_norm. reflexivity.
Qed.

Lemma gl_delete_other (g : GLState) (name other : GLuint) :
  other <> name ->
  gl_textures (gl_delete g name) !! other = gl_textures g !! other.
Proof.
  intros H. unfold gl_delete. destruct (decide (name = 0)); [reflexivity|].
  cbn [gl_textures]. rewrite lookup_delete_ne by congruence. reflexivity.
Qed.

(** X8: painting an item for the first time and destroying it gives back
    the table of textures: the texture of the item is gone, and every other
    name (0, the default texture, apart) is in use exactly when it was,
    with the parameters it had. *)
Theorem paint_destroy_textures (it : QSurfaceTexture.t) (w : World) :
  let res := QSurfaceTexture.updatePaintNode it None w in
  let w' := (QSurfaceTexture.dtor res.1.1 res.2).2 in
  forall name, name <> 0 ->
    gl_textures (gl w') !! name = gl_textures (gl w) !! name.
Proof.
  cbv zeta. intros name Hname.
  destruct (first_paint_named it w)
    as (tid & ? & ? & ? & ? & ? & ? & ? & ? & ? & ?
        & Etid & _ & _ & _ & _ & _ & _ & _ & _ & _ & _ & E).
  rewrite E. cbn [fst snd].
  assert (H0 : tid <> 0) by (rewrite Etid; apply gl_fresh_nonzero).
  rewrite item_dtor_run by exact H0. cbn [snd gl QSurfaceTexture.m_textureId].
  destruct (decide (name = tid)) as [->|Hne].
  - rewrite (proj1 (gl_delete_gone _ _ H0)). symmetry.
    rewrite Etid. apply gl_fresh_unused.
  - rewrite gl_delete_other by exact Hne.
    rewrite gl_bind_textures_other by exact Hname. cbn [gl_textures].
    rewrite lookup_insert_ne by congruence. reflexivity.
Qed.

(** ** What [preprocess] leaves alone *)

Lemma gl_bind_keeps_texture (target : GLenum) (t name : GLuint) (g : GLState) p :
  gl_textures g !! name = Some p ->
  gl_textures (gl_bind target t g) !! name = Some p.
Proof.
  intros H. unfold gl_bind. cbn [gl_textures].
  destruct (gl_textures g !! t) eqn:Et; [exact H|].
  rewrite lookup_insert_ne; [exact H|]. intros <-. congruence.
Qed.

Lemma java_call_keeps_textures obj name args g j t p :
  gl_textures g !! t = Some p ->
  gl_textures (java_call obj name args g j).1 !! t = Some p.
Proof.
  intros H. unfold java_call. destruct (deref j obj) as [o|]; [|exact H].
  unfold java_invoke.
  destruct (java_heap j !! o) as [[?|? ? ? ?|?|?]|]; try exact H.
  destruct (String.eqb name "updateTexImage");
    [cbn [fst]; apply gl_bind_keeps_texture, H|].
  destruct (String.eqb name "getTransformMatrix").
  { destruct args as [|[| |mtx] [|]]; try exact H.
    destruct (deref j mtx) as [a|]; [|exact H].
    destruct (java_heap j !! a) as [[old| | |]|]; try exact H.
    destruct (decide (length old = 16%nat)); exact H. }
  destruct (String.eqb name "setOnFrameAvailableListener"); [|exact H].
  destruct args as [|[| |l] [|]]; exact H.
Qed.

Lemma java_call_keeps_bindings obj name args g j key :
  key <> (gl_active g, GL_TEXTURE_EXTERNAL_OES) ->
  gl_bindings (java_call obj name args g j).1 !! key = gl_bindings g !! key.
Proof.
  intros H. unfold java_call. destruct (deref j obj) as [o|]; [|reflexivity].
  unfold java_invoke.
  destruct (java_heap j !! o) as [[?|? ? ? ?|?|?]|]; try reflexivity.
  destruct (String.eqb name "updateTexImage").
  { cbn [fst gl_bind gl_bindings]. rewrite lookup_insert_ne by congruence. reflexivity. }
  destruct (String.eqb name "getTransformMatrix").
  { destruct args as [|[| |mtx] [|]]; try reflexivity.
    destruct (deref j mtx) as [a|]; [|reflexivity].
    destruct (java_heap j !! a) as [[old| | |]|]; try reflexivity.
    destruct (decide (length old = 16%nat)); reflexivity. }
  destruct (String.eqb name "setOnFrameAvailableListener"); [|reflexivity].
  destruct args as [|[| |l] [|]]; reflexivity.
Qed.

(** A Java call changes the object it is made on and the array it is
    given, and nothing else on the heap. *)
Lemma java_call_heap_other obj name args g j x :
  deref j obj <> Some x ->
  (forall r, In (JRef r) args -> deref j r <> Some x) ->
  java_heap (java_call obj name args g j).2 !! x = java_heap j !! x.
Proof.
  intros Hobj Hargs. unfold java_call.
  destruct (deref j obj) as [o|] eqn:Ed; [|reflexivity].
  assert (Hox : o <> x) by congruence.
  unfold java_invoke.
  destruct (java_heap j !! o) as [[?|? ? ? ?|?|?]|]; try reflexivity.
  destruct (String.eqb name "updateTexImage").
  { cbn [snd java_heap]. rewrite lookup_insert_ne by assumption. reflexivity. }
  destruct (String.eqb name "getTransformMatrix").
  { destruct args as [|[| |mtx] [|]]; try reflexivity.
    destruct (deref j mtx) as [a|] eqn:Em; [|reflexivity].
    destruct (java_heap j !! a) as [[old| | |]|]; try reflexivity.
    destruct (decide (length old = 16%nat)); [|reflexivity].
    cbn [snd java_heap]. rewrite lookup_insert_ne; [reflexivity|].
    intros <-. apply (Hargs mtx); [left; reflexivity|exact Em]. }
  destruct (String.eqb name "setOnFrameAvailableListener"); [|reflexivity].
  destruct args as [|[| |l] [|]]; try reflexivity.
  cbn [snd java_heap]. rewrite lookup_insert_ne by assumption. reflexivity.
Qed.

Lemma java_call_deref obj name args g j r :
  deref (java_call obj name args g j).2 r = deref j r.
Proof. unfold deref. rewrite java_call_refs. reflexivity. Qed.

(** X9: a [preprocess] deletes no texture and changes no texture parameter;
    of the bindings it touches the external target only, and there only
    unit 0 and the unit that was active; on the Java heap it changes at most
    the SurfaceTexture object and the array of the node; the event loop is
    as it was. *)
Theorem preprocess_frame (n : SurfaceTextureNode.t) (w : World) :
  let w' := (SurfaceTextureNode.preprocess n w).2 in
  (forall name p, gl_textures (gl w) !! name = Some p ->
     gl_textures (gl w') !! name = Some p)
  /\ (forall unit target,
        target <> GL_TEXTURE_EXTERNAL_OES \/ (unit <> 0 /\ unit <> gl_active (gl w)) ->
        gl_bindings (gl w') !! (unit, target) = gl_bindings (gl w) !! (unit, target))
  /\ (forall x,
        deref (jvm w) (object (SurfaceTextureNode.m_surfaceTexture n)) <> Some x ->
        deref (jvm w) (SurfaceTextureNode.m_uSTMatrixArray n) <> Some x ->
        java_heap (jvm w') !! x = java_heap (jvm w) !! x)
  /\ qt w' = qt w.
Proof.
  cbv zeta. destruct (SurfaceTextureNode.material n) as [mat|] eqn:Em.
  - rewrite (preprocess_run n mat w Em). cbv zeta.
    cbn [snd gl jvm qt].
    set (st := object (SurfaceTextureNode.m_surfaceTexture n)).
    set (arr := SurfaceTextureNode.m_uSTMatrixArray n).
    set (c1 := java_call st "updateTexImage" [] (gl w) (jvm w)).
    set (c2 := java_call st "getTransformMatrix" [JRef arr] c1.1 c1.2).
    split; [|split; [|split]].
    + intros name p H. apply gl_bind_keeps_texture. cbn [gl_textures].
      do 2 apply java_call_keeps_textures. exact H.
    + intros unit target H. unfold gl_bind. cbn [gl_bindings gl_active].
      assert (Hact : gl_active c1.1 = gl_active (gl w)) by apply java_call_active.
      rewrite lookup_insert_ne by (intros [= <- <-]; destruct H as [H|[H _]]; congruence).
      unfold c2. rewrite java_call_keeps_bindings
        by (rewrite Hact; intros [= -> ->]; destruct H as [H|[_ H]]; congruence).
      unfold c1. rewrite java_call_keeps_bindings
        by (intros [= -> ->]; destruct H as [H|[_ H]]; congruence).
      reflexivity.
    + intros x Hst Harr. unfold c2.
      rewrite java_call_heap_other.
      * unfold c1. apply java_call_heap_other; [exact Hst|intros r []].
      * unfold c1. rewrite java_call_deref. exact Hst.
      * intros r [[= <-]|[]]. unfold c1. rewrite java_call_deref. exact Harr.
    + reflexivity.
  - rewrite (preprocess_no_material n w Em). cbn [snd]. repeat split; auto.
Qed.

(** ** A SurfaceTexture that is not there *)



(** ** The vertices *)

Lemma flipped_edges_finite (it : QSurfaceTexture.t) sw mw ew sh mh eh :
  QSurfaceTexture.width it = S754_finite sw mw ew ->
  QSurfaceTexture.height it = S754_finite sh mh eh ->
  let r := QSurfaceTexture.flipped (QSurfaceTexture.boundingRect it) in
  QRectF.left r = f64_zero /\ QRectF.top r = QSurfaceTexture.height it
  /\ QRectF.right r = QSurfaceTexture.width it /\ QRectF.bottom r = f64_zero.
Proof.
  intros Hw Hh. cbv zeta.
  unfold QSurfaceTexture.boundingRect, QSurfaceTexture.flipped. rewrite Hw, Hh.
  split; [reflexivity|]. split; [reflexivity|]. split; [reflexivity|].
  unfold QRectF.bottom, qreal_add. cbn. rewrite cond_Zopp_cancel. reflexivity.
Qed.

(** X11: for an item whose width and height are finite and not zero, every
    [updatePaintNode] leaves the four vertices (0, H), (0, 0), (W, H),
    (W, 0), with W and H the width and height rounded to [float], and the
    texture coordinates (0, 0), (0, 1), (1, 0), (1, 1): the image is drawn
    upside down over the whole item, whatever the node held before. *)
Theorem updatePaintNode_vertices (it : QSurfaceTexture.t)
  (n : option SurfaceTextureNode.t) (w : World) :
  is_finite (QSurfaceTexture.width it) && negb (is_zero (QSurfaceTexture.width it)) = true ->
  is_finite (QSurfaceTexture.height it) && negb (is_zero (QSurfaceTexture.height it)) = true ->
  let W := qreal_to_float (QSurfaceTexture.width it) in
  let H := qreal_to_float (QSurfaceTexture.height it) in
  vertexData (SurfaceTextureNode.m_geometry (QSurfaceTexture.updatePaintNode it n w).1.2)
  = MkArr4 (MkPoint f32_zero H f32_zero f32_zero)
           (MkPoint f32_zero f32_zero f32_zero f32_one)
           (MkPoint W H f32_one f32_zero)
           (MkPoint W f32_zero f32_one f32_one).
Proof.
  intros Hw Hh. cbv zeta.
  destruct (updatePaintNode_geometry it n w) as [_ Hgeom]. cbv zeta in Hgeom.
  rewrite Hgeom.
  destruct (QSurfaceTexture.width it) as [[]|[]| |sw mw ew] eqn:Ew; try discriminate Hw.
  destruct (QSurfaceTexture.height it) as [[]|[]| |sh mh eh] eqn:Eh; try discriminate Hh.
  destruct (flipped_edges_finite it _ _ _ _ _ _ Ew Eh) as (Hl & Ht & Hr & Hb).
  cbv zeta in Hl, Ht, Hr, Hb.
  unfold rect_geometry, corner. cbn [vertexData]. rewrite Hl, Ht, Hr, Hb, Ew, Eh.
  reflexivity.
Qed.

(** ** The shader and its program *)

Lemma setUniformValue_locations (l : Z) (v : UniformValue) (p : ShaderProgram) :
  uniform_locations (setUniformValue l v p) = uniform_locations p.
Proof. unfold setUniformValue. destruct (decide _); reflexivity. Qed.

Lemma is_location_named (name : string) (l : Z) (p : ShaderProgram) :
  uniform_locations p !! name = Some l -> l <> -1 -> is_location p l.
Proof. intros H Hl. split; [exact Hl|]. exists name, l. split; [exact H|reflexivity]. Qed.

Lemma is_location_set (l l' : Z) (v : UniformValue) (p : ShaderProgram) :
  is_location p l -> is_location (setUniformValue l' v p) l.
Proof. unfold is_location. rewrite setUniformValue_locations. auto. Qed.

Lemma setUniformValue_at (l : Z) (v : UniformValue) (p : ShaderProgram) :
  is_location p l -> uniform_values (setUniformValue l v p) !! l = Some v.
Proof.
  intros H. unfold setUniformValue. rewrite decide_True by exact H.
  cbn [uniform_values]. apply lookup_insert_eq.
Qed.

Lemma setUniformValue_other (l l' : Z) (v : UniformValue) (p : ShaderProgram) :
  l' <> l -> uniform_values (setUniformValue l v p) !! l' = uniform_values p !! l'.
Proof.
  intros H. unfold setUniformValue. destruct (decide _); [|reflexivity].
  cbn [uniform_values]. apply lookup_insert_ne. congruence.
Qed.

Lemma setUniformValue_missing (v : UniformValue) (p : ShaderProgram) :
  setUniformValue (-1) v p = p.
Proof.
  unfold setUniformValue. rewrite decide_False; [reflexivity|].
  intros [H _]. apply H. reflexivity.
Qed.

Lemma updateStates_locations (this : SurfaceTextureShader.t) (states : list State.t)
  (p : ShaderProgram) :
  uniform_locations (updateStates this states p) = uniform_locations p.
Proof.
  revert p. induction states as [|s rest IH]; intros p; [reflexivity|].
  cbn [updateStates]. rewrite IH. apply setUniformValue_locations.
Qed.

Lemma updateStates_other (this : SurfaceTextureShader.t) (states : list State.t)
  (p : ShaderProgram) (l : Z) :
  l <> SurfaceTextureShader.m_uSTMatrixLoc this ->
  uniform_values (updateStates this states p) !! l = uniform_values p !! l.
Proof.
  intros Hl. revert p. induction states as [|s rest IH]; intros p; [reflexivity|].
  cbn [updateStates]. rewrite IH. apply setUniformValue_other. exact Hl.
Qed.

Lemma updateStates_last (this : SurfaceTextureShader.t) (states : list State.t)
  (s : State.t) (p : ShaderProgram) :
  is_location p (SurfaceTextureShader.m_uSTMatrixLoc this) ->
  uniform_values (updateStates this (states ++ [s]) p)
    !! SurfaceTextureShader.m_uSTMatrixLoc this
  = Some (UniformMatrix (flat16 (QMatrix4x4.m (State.uSTMatrix s)))).
Proof.
  revert p. induction states as [|s0 rest IH]; intros p H.
  - cbn [app updateStates]. apply setUniformValue_at. exact H.
  - cbn [app updateStates]. apply IH. apply is_location_set. exact H.
Qed.

(** X12: on a program with both uniforms active at two locations, after
    [resolveUniforms] and any number of [updateState] calls the location of
    [uSTMatrix] holds the sixteen floats of the state given last, the
    sampler [sTexture] still holds 0, no other location has changed since
    [resolveUniforms], and the table of locations is the program's own. *)
Theorem shader_uniforms_after_updates (this : SurfaceTextureShader.t)
  (p : ShaderProgram) (lm ls : Z) (states : list State.t) (s : State.t) :
  uniform_locations p !! "uSTMatrix" = Some lm ->
  uniform_locations p !! "sTexture" = Some ls ->
  lm <> -1 -> ls <> -1 -> lm <> ls ->
  let this' := (SurfaceTextureShader.resolveUniforms this p).1 in
  let p1 := (SurfaceTextureShader.resolveUniforms this p).2 in
  let p2 := updateStates this' (states ++ [s]) p1 in
  SurfaceTextureShader.m_uSTMatrixLoc this' = lm
  /\ uniform_values p2 !! lm
     = Some (UniformMatrix (flat16 (QMatrix4x4.m (State.uSTMatrix s))))
  /\ uniform_values p2 !! ls = Some (UniformInt 0)
  /\ (forall l, l <> lm -> uniform_values p2 !! l = uniform_values p1 !! l)
  /\ (forall l, l <> lm -> l <> ls -> uniform_values p2 !! l = uniform_values p !! l)
  /\ uniform_locations p2 = uniform_locations p.
Proof.
  intros Hm Hs Hlm Hls Hne. cbv zeta.
  unfold SurfaceTextureShader.resolveUniforms. cbn [fst snd].
  unfold setUniformValue_named, uniformLocation. rewrite Hm, Hs. cbn [default from_option id].
  pose proof (is_location_named _ _ _ Hm Hlm) as Lm.
  pose proof (is_location_named _ _ _ Hs Hls) as Ls.
  set (this' := SurfaceTextureShader.Mk lm).
  change lm with (SurfaceTextureShader.m_uSTMatrixLoc this') at 2 3.
  split; [reflexivity|]. split; [|split; [|split; [|split]]].
  - apply updateStates_last. apply is_location_set. exact Lm.
  - rewrite updateStates_other by (cbn; congruence). apply setUniformValue_at. exact Ls.
  - intros l Hl. apply updateStates_other. exact Hl.
  - intros l Hl Hl'. rewrite updateStates_other by exact Hl.
    apply setUniformValue_other. exact Hl'.
  - rewrite updateStates_locations. apply setUniformValue_locations.
Qed.

(** X13: on a program where [uSTMatrix] is not an active uniform (the
    compiler has dropped it, or the source has another name),
    [resolveUniforms] stores -1 and every later [updateState] leaves the
    program as it is: no matrix reaches the program, and nothing fails. *)
Theorem shader_without_matrix_uniform (this : SurfaceTextureShader.t)
  (p : ShaderProgram) (states : list State.t) :
  uniform_locations p !! "uSTMatrix" = None ->
  let this' := (SurfaceTextureShader.resolveUniforms this p).1 in
  let p1 := (SurfaceTextureShader.resolveUniforms this p).2 in
  SurfaceTextureShader.m_uSTMatrixLoc this' = -1
  /\ updateStates this' states p1 = p1.
Proof.
  intros Hm. cbv zeta. unfold SurfaceTextureShader.resolveUniforms. cbn [fst snd].
  unfold uniformLocation at 1 2. rewrite Hm. cbn [default from_option id].
  split; [reflexivity|].
  generalize (setUniformValue_named "sTexture" (UniformInt 0) p). intros q.
  induction states as [|s rest IH]; [reflexivity|].
  cbn [updateStates]. unfold SurfaceTextureShader.updateState.
  cbn [SurfaceTextureShader.m_uSTMatrixLoc]. rewrite setUniformValue_missing. exact IH.
Qed.

(** X14: a draw of a node in working order.  After [resolveUniforms] on a
    program with both uniforms, [preprocess] of the node and [updateState]
    with the state of its material, the sampler [sTexture] reads the texture
    of the node (the unit [preprocess] binds it on is the unit the sampler
    was set to) and [uSTMatrix] holds the transform of the newest frame. *)
Theorem draw_samples_node_texture (this : SurfaceTextureShader.t) (p : ShaderProgram)
  (lm ls : Z) (n : SurfaceTextureNode.t) (w : World) (o : Z)
  (transform : Arr4 (Arr4 float32)) (queued : list (Arr4 (Arr4 float32))) :
  uniform_locations p !! "uSTMatrix" = Some lm ->
  uniform_locations p !! "sTexture" = Some ls ->
  lm <> -1 -> ls <> -1 -> lm <> ls ->
  node_serves n w o transform queued ->
  let this' := (SurfaceTextureShader.resolveUniforms this p).1 in
  let p1 := (SurfaceTextureShader.resolveUniforms this p).2 in
  let n' := (SurfaceTextureNode.preprocess n w).1 in
  let w' := (SurfaceTextureNode.preprocess n w).2 in
  exists mat, SurfaceTextureNode.material n' = Some mat
  /\ let p2 := SurfaceTextureShader.updateState this' (state mat) (state mat) p1 in
     sampled_texture "sTexture" p2 (gl w') = Some (SurfaceTextureNode.m_textureId n)
     /\ uniform_values p2 !! lm
        = Some (UniformMatrix (flat16 (default transform (last queued)))).
Proof.
  intros Hm Hs Hlm Hls Hne Hn. cbv zeta.
  destruct (preprocess_serves n w o transform queued Hn) as (_ & Hmx & _). cbv zeta in Hmx.
  pose proof Hn as (Hmat & _).
  destruct (SurfaceTextureNode.material n) as [mat0|] eqn:Em; [|congruence].
  rewrite (preprocess_run n mat0 w Em) in *. cbv zeta in *. cbn [fst snd gl] in *.
  unfold node_matrix in Hmx.
  cbn [SurfaceTextureNode.material SurfaceTextureNode.set_material fmap option_fmap
       option_map] in Hmx |- *.
  eexists. split; [reflexivity|]. cbv zeta. cbn [state] in Hmx |- *.
  pose proof (inj Some _ _ Hmx) as Hflat.
  pose proof (is_location_named _ _ _ Hm Hlm) as Lm.
  pose proof (is_location_named _ _ _ Hs Hls) as Ls.
  unfold SurfaceTextureShader.resolveUniforms, SurfaceTextureShader.updateState.
  cbn [fst snd SurfaceTextureShader.m_uSTMatrixLoc].
  unfold setUniformValue_named, uniformLocation. rewrite Hm, Hs. cbn [default from_option id].
  split.
  - unfold sampled_texture, uniformLocation.
    rewrite !setUniformValue_locations, Hs. cbn [default from_option id].
    rewrite setUniformValue_other by congruence.
    rewrite setUniformValue_at by exact Ls.
    unfold gl_bind. cbn [gl_bindings gl_active]. apply lookup_insert_eq.
  - rewrite setUniformValue_at by (apply is_location_set; exact Lm).
    rewrite Hflat. reflexivity.
Qed.

(** ** A second [preprocess] *)

Lemma store_data_flat16 (T : Arr4 (Arr4 float32)) (x : QMatrix4x4.t) :
  QMatrix4x4.store_data (flat16 T) x = QMatrix4x4.Mk T QMatrix4x4.General.
Proof.
  destruct x as [[[] [] [] []] bits], T as [[] [] [] []]. reflexivity.
Qed.

Lemma gl_bind_again (target : GLenum) (t : GLuint) (g : GLState) :
  gl_bindings g !! (gl_active g, target) = Some t ->
  is_Some (gl_textures g !! t) ->
  gl_bind target t g = g.
Proof.
  intros Hb [p Hp]. destruct g as [textures active bindings]. unfold gl_bind.
  cbn [gl_textures gl_active gl_bindings] in *. rewrite Hp.
  rewrite insert_id by exact Hb. reflexivity.
Qed.

(** A [preprocess] in a world that already is as a [preprocess] leaves it:
    nothing waits, the array and the matrix hold the latched transform and
    the texture is bound on unit 0, which is active. *)
Lemma preprocess_settled (n : SurfaceTextureNode.t) (mat : QSGSimpleMaterial)
  (w : World) (o : Z) (listener : option Z) (T : Arr4 (Arr4 float32)) :
  SurfaceTextureNode.material n = Some mat ->
  State.uSTMatrix (state mat) = QMatrix4x4.Mk T QMatrix4x4.General ->
  deref (jvm w) (object (SurfaceTextureNode.m_surfaceTexture n)) = Some o ->
  java_heap (jvm w) !! o
  = Some (JSurfaceTexture (SurfaceTextureNode.m_textureId n) listener T []) ->
  float_array (jvm w) (SurfaceTextureNode.m_uSTMatrixArray n) = Some (flat16 T) ->
  gl_active (gl w) = 0 ->
  gl_bindings (gl w) !! (0, GL_TEXTURE_EXTERNAL_OES)
  = Some (SurfaceTextureNode.m_textureId n) ->
  is_Some (gl_textures (gl w) !! SurfaceTextureNode.m_textureId n) ->
  (SurfaceTextureNode.preprocess n w).1 = n
  /\ gl (SurfaceTextureNode.preprocess n w).2 = gl w
  /\ jvm (SurfaceTextureNode.preprocess n w).2 = jvm w
  /\ qt (SurfaceTextureNode.preprocess n w).2 = qt w.
Proof.
  intros Hmat Hm Hd Ho Harr Hact Hbind Htex.
  rewrite (preprocess_run n mat w Hmat). cbv zeta. cbn [fst snd gl jvm qt].
  set (st := object (SurfaceTextureNode.m_surfaceTexture n)) in *.
  set (arr := SurfaceTextureNode.m_uSTMatrixArray n) in *.
  set (tid := SurfaceTextureNode.m_textureId n) in *.
  assert (Hg : gl_bind GL_TEXTURE_EXTERNAL_OES tid (gl w) = gl w).
  { apply gl_bind_again; [rewrite Hact; exact Hbind|exact Htex]. }
  assert (E1 : java_call st "updateTexImage" [] (gl w) (jvm w) = (gl w, jvm w)).
  { unfold java_call. rewrite Hd. unfold java_invoke. rewrite Ho.
    cbn [String.eqb Ascii.eqb Bool.eqb last default from_option id].
    rewrite Hg. rewrite insert_id by exact Ho. destruct (jvm w); reflexivity. }
  rewrite E1. cbn [fst snd].
  assert (E2 : java_call st "getTransformMatrix" [JRef arr] (gl w) (jvm w)
               = (gl w, jvm w)).
  { unfold java_call. rewrite Hd. unfold java_invoke. rewrite Ho.
    cbn [String.eqb Ascii.eqb Bool.eqb].
    unfold float_array in Harr.
    destruct (deref (jvm w) arr) as [a|]; [|discriminate Harr].
    cbn [mbind option_bind] in Harr.
    destruct (java_heap (jvm w) !! a) as [[elems| | |]|] eqn:Ha; try discriminate Harr.
    pose proof (inj Some _ _ Harr) as ->.
    rewrite decide_True by apply flat16_length.
    rewrite insert_id by exact Ha. destruct (jvm w); reflexivity. }
  rewrite E2. cbn [fst snd].
  rewrite (float_region_full _ _ _ Harr (flat16_length _)).
  cbn [default from_option id]. rewrite store_data_flat16, <- Hm.
  split; [|split; [|split; reflexivity]].
  - destruct n as [fl m0 s0 g0 a0 t0]. cbn [SurfaceTextureNode.material] in Hmat.
    rewrite Hmat. destruct mat as [mf [ms]]. reflexivity.
  - destruct (gl w) as [textures active bindings]. cbn [gl_active] in Hact. subst active.
    exact Hg.
Qed.

(** X15: on a node in working order, a [preprocess] that follows a
    [preprocess] with no frame queued in between changes nothing: the node,
    the GL context, the Java side and the event loop are as the first left
    them; only the five calls are issued again. *)
Theorem preprocess_twice (n : SurfaceTextureNode.t) (w : World) (o : Z)
  (transform : Arr4 (Arr4 float32)) (queued : list (Arr4 (Arr4 float32))) :
  node_serves n w o transform queued ->
  let r1 := SurfaceTextureNode.preprocess n w in
  let r2 := SurfaceTextureNode.preprocess r1.1 r1.2 in
  r2.1 = r1.1 /\ gl r2.2 = gl r1.2 /\ jvm r2.2 = jvm r1.2 /\ qt r2.2 = qt r1.2
  /\ length (trace r2.2) = (length (trace r1.2) + 5)%nat.
Proof.
  intros Hn. cbv zeta.
  pose proof Hn as (Hmat & H16 & Hd & listener & Ho).
  destruct (SurfaceTextureNode.material n) as [mat|] eqn:Em; [|congruence].
  set (T := default transform (last queued)).
  set (n1 := (SurfaceTextureNode.preprocess n w).1).
  set (w1 := (SurfaceTextureNode.preprocess n w).2).
  assert (S : exists mat1,
     SurfaceTextureNode.material n1 = Some mat1
     /\ State.uSTMatrix (state mat1) = QMatrix4x4.Mk T QMatrix4x4.General
     /\ deref (jvm w1) (object (SurfaceTextureNode.m_surfaceTexture n1)) = Some o
     /\ java_heap (jvm w1) !! o
        = Some (JSurfaceTexture (SurfaceTextureNode.m_textureId n1) listener T [])
     /\ float_array (jvm w1) (SurfaceTextureNode.m_uSTMatrixArray n1) = Some (flat16 T)
     /\ gl_active (gl w1) = 0
     /\ gl_bindings (gl w1) !! (0, GL_TEXTURE_EXTERNAL_OES)
        = Some (SurfaceTextureNode.m_textureId n1)
     /\ is_Some (gl_textures (gl w1) !! SurfaceTextureNode.m_textureId n1)).
  { unfold n1, w1. rewrite (preprocess_run n mat w Em). cbv zeta. cbn [fst snd gl jvm].
    set (st := object (SurfaceTextureNode.m_surfaceTexture n)) in *.
    set (arr := SurfaceTextureNode.m_uSTMatrixArray n) in *.
    set (c1 := java_call st "updateTexImage" [] (gl w) (jvm w)).
    set (c2 := java_call st "getTransformMatrix" [JRef arr] c1.1 c1.2).
    destruct (updateTexImage_latches st (gl w) (jvm w) o _ _ _ _ Hd Ho) as [Ho1 Hd1].
    fold c1 in Ho1, Hd1. fold T in Ho1.
    pose proof (java_call_array16 st "updateTexImage" [] (gl w) (jvm w) arr H16) as H16a.
    fold c1 in H16a.
    pose proof (getTransformMatrix_fills st arr c1.1 c1.2 o _ _ _ _ Hd1 Ho1 H16a) as Hfill.
    fold c2 in Hfill.
    pose proof (getTransformMatrix_keeps_texture st [JRef arr] c1.1 c1.2 o _ _ _ _ Ho1)
      as Ho2.
    fold c2 in Ho2.
    rewrite (float_region_full _ _ _ Hfill (flat16_length _)).
    cbn [default from_option id]. rewrite store_data_flat16.
    eexists. split; [reflexivity|]. cbn [state State.uSTMatrix].
    split; [reflexivity|].
    cbn [SurfaceTextureNode.m_surfaceTexture SurfaceTextureNode.m_textureId
         SurfaceTextureNode.m_uSTMatrixArray SurfaceTextureNode.set_material].
    fold st arr.
    split; [unfold deref in *; unfold c2; rewrite java_call_refs; exact Hd1|].
    split; [exact Ho2|]. split; [exact Hfill|].
    unfold gl_bind. cbn [gl_active gl_bindings gl_textures].
    split; [reflexivity|]. split; [apply lookup_insert_eq|].
    destruct (gl_textures c2.1 !! SurfaceTextureNode.m_textureId n) eqn:Et.
    - rewrite Et. eauto.
    - rewrite lookup_insert_eq. eauto. }
  destruct S as (mat1 & S1 & S2 & S3 & S4 & S5 & S6 & S7 & S8).
  destruct (preprocess_settled n1 mat1 w1 o listener T S1 S2 S3 S4 S5 S6 S7 S8)
    as (R1 & R2 & R3 & R4).
  split; [exact R1|]. split; [exact R2|]. split; [exact R3|]. split; [exact R4|].
  rewrite (preprocess_run n1 mat1 w1 S1). cbv zeta. cbn [snd trace].
  rewrite length_app. reflexivity.
Qed.

(** ** The properties on the sample item *)

Lemma painted_node_serves :
  node_serves painted_node painted_world painted_texture_object identity_transform [].
Proof.
  assert (E : painted_texture_object = fresh_object (jvm initial_world))
    by (vm_compute; reflexivity).
  rewrite E. exact (proj1 (first_paint_serves sample_item initial_world)).
Qed.

Lemma queue_frame_serves (o : Z) (mtx : Arr4 (Arr4 float32))
  (n : SurfaceTextureNode.t) (w : World) transform queued :
  node_serves n w o transform queued ->
  node_serves n (MkWorld (trace w) (gl w) (queue_frame o mtx (jvm w)) (qt w))
              o transform (queued ++ [mtx]).
Proof. exact (queue_batch_serves o [mtx] n w transform queued). Qed.

Lemma frame_node_serves :
  node_serves painted_node frame_world painted_texture_object identity_transform
              [flip_transform].
Proof.
  exact (queue_frame_serves painted_texture_object flip_transform painted_node
           painted_world identity_transform [] painted_node_serves).
Qed.

Lemma render_shows_newest_frame_witness :
  node_serves painted_node painted_world painted_texture_object identity_transform []
  /\ node_matrix (render painted_texture_object
                    [[flip_transform]; []; [identity_transform; flip_transform]]
                    painted_node painted_world).1
     = Some (flat16 flip_transform).
Proof.
  split; [exact painted_node_serves|].
  refine (proj1 (render_shows_newest_frame painted_texture_object
                   [[flip_transform]; []; [identity_transform; flip_transform]]
                   painted_node painted_world identity_transform []
                   painted_node_serves _)).
  discriminate.
Defined.


Lemma node_stays_in_order_witness :
  node_ok painted_node painted_world
  /\ node_ok painted_node frame_world
  /\ node_ok (SurfaceTextureNode.preprocess painted_node frame_world).1
             (SurfaceTextureNode.preprocess painted_node frame_world).2.
Proof.
  destruct node_stays_in_order as [Hfirst Hkeep].
  assert (H0 : node_ok painted_node painted_world)
    by exact (Hfirst sample_item initial_world).
  assert (H1 : node_ok painted_node frame_world).
  { destruct (Hkeep painted_node painted_world H0) as (_ & _ & _ & _ & _ & _ & Hq).
    exact (Hq painted_texture_object flip_transform). }
  split; [exact H0|]. split; [exact H1|].
  destruct (Hkeep painted_node frame_world H1) as (_ & Hpre & _). exact Hpre.
Defined.

Lemma paint_destroy_textures_witness :
  QSurfaceTexture.m_textureId painted_item <> 0
  /\ gl_textures (gl (QSurfaceTexture.dtor painted_item painted_world).2)
       !! QSurfaceTexture.m_textureId painted_item
     = gl_textures (gl initial_world) !! QSurfaceTexture.m_textureId painted_item.
Proof.
  assert (H : QSurfaceTexture.m_textureId painted_item <> 0)
    by (vm_compute; discriminate).
  split; [exact H|].
  exact (paint_destroy_textures sample_item initial_world _ H).
Defined.

Lemma preprocess_frame_witness :
  (1 <> 0 /\ 1 <> gl_active (gl frame_world))
  /\ gl_bindings (gl (SurfaceTextureNode.preprocess painted_node frame_world).2)
       !! (1, GL_TEXTURE_EXTERNAL_OES)
     = gl_bindings (gl frame_world) !! (1, GL_TEXTURE_EXTERNAL_OES).
Proof.
  assert (H : 1 <> 0 /\ 1 <> gl_active (gl frame_world))
    by (split; [discriminate|vm_compute; discriminate]).
  split; [exact H|].
  destruct (preprocess_frame painted_node frame_world) as (_ & Hbind & _).
  apply Hbind. right. exact H.
Defined.


Lemma updatePaintNode_vertices_witness :
  vertexData (SurfaceTextureNode.m_geometry
                (QSurfaceTexture.updatePaintNode sample_item None initial_world).1.2)
  = MkArr4 (MkPoint f32_zero (qreal_to_float (QSurfaceTexture.height sample_item))
                    f32_zero f32_zero)
           (MkPoint f32_zero f32_zero f32_zero f32_one)
           (MkPoint (qreal_to_float (QSurfaceTexture.width sample_item))
                    (qreal_to_float (QSurfaceTexture.height sample_item))
                    f32_one f32_zero)
           (MkPoint (qreal_to_float (QSurfaceTexture.width sample_item)) f32_zero
                    f32_one f32_one).
Proof.
  apply (updatePaintNode_vertices sample_item None initial_world); reflexivity.
Defined.

Lemma shader_uniforms_after_updates_witness :
  let p2 := updateStates (SurfaceTextureShader.resolveUniforms sample_shader sample_program).1
              [State.Mk QMatrix4x4.identity; signed_zero_state]
              (SurfaceTextureShader.resolveUniforms sample_shader sample_program).2 in
  uniform_values p2 !! 1
  = Some (UniformMatrix (flat16 (QMatrix4x4.m (State.uSTMatrix signed_zero_state))))
  /\ uniform_values p2 !! 2 = Some (UniformInt 0).
Proof.
  cbv zeta.
  assert (Em : uniform_locations sample_program !! "uSTMatrix" = Some 1)
    by (vm_compute; reflexivity).
  assert (Es : uniform_locations sample_program !! "sTexture" = Some 2)
    by (vm_compute; reflexivity).
  destruct (shader_uniforms_after_updates sample_shader sample_program 1 2
              [State.Mk QMatrix4x4.identity] signed_zero_state Em Es)
    as (_ & Hm & Hs & _); [discriminate|discriminate|discriminate|].
  split; [exact Hm|exact Hs].
Defined.

Lemma shader_without_matrix_uniform_witness :
  uniform_locations plain_program !! "uSTMatrix" = None
  /\ updateStates (SurfaceTextureShader.resolveUniforms sample_shader plain_program).1
       [State.Mk QMatrix4x4.identity; signed_zero_state]
       (SurfaceTextureShader.resolveUniforms sample_shader plain_program).2
     = (SurfaceTextureShader.resolveUniforms sample_shader plain_program).2.
Proof.
  assert (H : uniform_locations plain_program !! "uSTMatrix" = None)
    by (vm_compute; reflexivity).
  split; [exact H|].
  exact (proj2 (shader_without_matrix_uniform sample_shader plain_program
                  [State.Mk QMatrix4x4.identity; signed_zero_state] H)).
Defined.

Lemma draw_samples_node_texture_witness :
  node_serves painted_node frame_world painted_texture_object identity_transform
              [flip_transform]
  /\ exists mat,
       SurfaceTextureNode.material
         (SurfaceTextureNode.preprocess painted_node frame_world).1 = Some mat
       /\ sampled_texture "sTexture"
            (SurfaceTextureShader.updateState
               (SurfaceTextureShader.resolveUniforms sample_shader sample_program).1
               (state mat) (state mat)
               (SurfaceTextureShader.resolveUniforms sample_shader sample_program).2)
            (gl (SurfaceTextureNode.preprocess painted_node frame_world).2)
          = Some (SurfaceTextureNode.m_textureId painted_node).
Proof.
  split; [exact frame_node_serves|].
  assert (Em : uniform_locations sample_program !! "uSTMatrix" = Some 1)
    by (vm_compute; reflexivity).
  assert (Es : uniform_locations sample_program !! "sTexture" = Some 2)
    by (vm_compute; reflexivity).
  destruct (draw_samples_node_texture sample_shader sample_program 1 2
              painted_node frame_world painted_texture_object identity_transform
              [flip_transform] Em Es)
    as (mat & Hmat & Hs & _);
    [discriminate|discriminate|discriminate|exact frame_node_serves|].
  exists mat. split; [exact Hmat|exact Hs].
Defined.

Lemma preprocess_twice_witness :
  node_serves painted_node frame_world painted_texture_object identity_transform
              [flip_transform]
  /\ (SurfaceTextureNode.preprocess
        (SurfaceTextureNode.preprocess painted_node frame_world).1
        (SurfaceTextureNode.preprocess painted_node frame_world).2).1
     = (SurfaceTextureNode.preprocess painted_node frame_world).1.
Proof.
  split; [exact frame_node_serves|].
  exact (proj1 (preprocess_twice painted_node frame_world painted_texture_object
                  identity_transform [flip_transform] frame_node_serves)).
Defined.
